(** * A shallow embedding of the PDF table pipeline of [app.py]

    The development follows the source file top-down: Python values and the
    string methods the pipeline relies on, the validation of a classification
    response, the retrying call to the generative endpoint, table detection,
    the per-page task, the run over all pages, and the final merge.

    External collaborators (the generative endpoint, [json.loads], the OCR
    and rasterizer tools, [pdfkit], PyPDF2's reader, the file system where
    it may fail) are oracles: the code is verified for every behaviour they
    may show, including the exceptions that [json.loads] raises besides its
    [JSONDecodeError], a write that fails after the file was opened, and a
    removal that fails.  [time.sleep] refuses a negative length.  Wall-clock
    measurements ([response_time], durations) are not part of the model,
    and of a log line only its level and the fixed part of its text are
    kept.  Messages the code builds are kept in full, with the text that
    CPython 3.11 gives to the exceptions it raises itself. *)

From Stdlib Require Import Floats Ascii String ZArith Lia List Permutation.
From stdpp Require Import gmap strings list fin_maps pretty.

(** ** Python values *)

(** What [json.loads] can return, which is also what the dictionaries handed
    around by the pipeline hold.  A [dict] with string keys is a [gmap]. *)
#[warnings="-register-all"]
Inductive pyval :=
| PyNone
| PyBool (b : bool)
| PyInt (z : Z)
| PyFloat (f : float)
| PyStr (s : string)
| PyList (l : list pyval)
| PyDict (d : gmap string pyval).

(** [isinstance(v, bool)] *)
Definition isinstance_bool (v : pyval) : bool :=
  match v with PyBool _ => true | _ => false end.

(** [isinstance(v, (int, float))]: [bool] is a subclass of [int]. *)
Definition isinstance_int_float (v : pyval) : bool :=
  match v with PyBool _ | PyInt _ | PyFloat _ => true | _ => false end.

(** [isinstance(v, dict)] *)
Definition isinstance_dict (v : pyval) : bool :=
  match v with PyDict _ => true | _ => false end.

(** [0.0 <= v <= 1.0] for a value that passed [isinstance_int_float].
    Python compares an int with a float exactly, so on integers the test is
    [0 <= z <= 1]; on floats it is the IEEE comparison (false on NaN). *)
Definition in_unit_interval (v : pyval) : bool :=
  match v with
  | PyBool _ => true
  | PyInt z => (0 <=? z)%Z && (z <=? 1)%Z
  | PyFloat f => PrimFloat.leb 0%float f && PrimFloat.leb f 1%float
  | _ => false
  end.

(** Truth value of an object, as [if v:] tests it. *)
Definition truthy (v : pyval) : bool :=
  match v with
  | PyNone => false
  | PyBool b => b
  | PyInt z => negb (z =? 0)%Z
  | PyFloat f => negb (PrimFloat.eqb f 0%float)
  | PyStr s => negb (String.eqb s "")
  | PyList l => match l with [] => false | _ => true end
  | PyDict d => negb (bool_decide (d = ∅))
  end.

(** ** Python strings

    A [string] is read as a sequence of code points below 256. *)
Module PyStr.

(** [str.isspace] on one code point: TAB..CR, FS..US, space, NEL, NBSP. *)
Definition isspace (c : ascii) : bool :=
  let n := nat_of_ascii c in
  ((9 <=? n) && (n <=? 13)) || ((28 <=? n) && (n <=? 32))
  || (n =? 133) || (n =? 160).

Fixpoint lstrip (s : string) : string :=
  match s with
  | EmptyString => EmptyString
  | String c s' => if isspace c then lstrip s' else s
  end.

Fixpoint rstrip (s : string) : string :=
  match s with
  | EmptyString => EmptyString
  | String c s' =>
      match rstrip s' with
      | EmptyString => if isspace c then EmptyString else String c EmptyString
      | r => String c r
      end
  end.

(** [s.strip()] *)
Definition strip (s : string) : string := rstrip (lstrip s).

(** [s.startswith(p)] *)
Fixpoint startswith (s p : string) {struct p} : bool :=
  match p, s with
  | EmptyString, _ => true
  | String a p', String b s' => Ascii.eqb a b && startswith s' p'
  | String _ _, EmptyString => false
  end.

(** [s[n:]] and [s[:n]] for [n >= 0] *)
Fixpoint drop (n : nat) (s : string) : string :=
  match n, s with
  | O, _ => s
  | S _, EmptyString => EmptyString
  | S n', String _ s' => drop n' s'
  end.

Fixpoint take (n : nat) (s : string) : string :=
  match n, s with
  | O, _ => EmptyString
  | S _, EmptyString => EmptyString
  | S n', String c s' => String c (take n' s')
  end.

(** [s[:-k]] for [k > 0]: a stop before the start is clipped to it. *)
Definition slice_to_neg (k : nat) (s : string) : string :=
  take (String.length s - k) s.

(** [s.endswith(suf)] *)
Definition endswith (s suf : string) : bool :=
  (String.length suf <=? String.length s)
  && String.eqb (drop (String.length s - String.length suf) s) suf.

(** [s.replace(old, new, 1)]: the leftmost occurrence only. *)
Fixpoint replace_first (s old new : string) : string :=
  if startswith s old then new +:+ drop (String.length old) s
  else match s with
       | EmptyString => EmptyString
       | String c s' => String c (replace_first s' old new)
       end.

(** [sub in s] *)
Fixpoint contains (s sub : string) : bool :=
  startswith s sub
  || match s with
     | EmptyString => false
     | String _ s' => contains s' sub
     end.

(** Every character is whitespace (so also: the empty string). *)
Fixpoint whitespace_only (s : string) : bool :=
  match s with
  | EmptyString => true
  | String c s' => isspace c && whitespace_only s'
  end.

End PyStr.

(** ** Markup post-processing: [clean_ai_html_response] *)

Definition fence_html : string := "```html".
Definition fence : string := "```".

Definition clean_ai_html_response (response : string) : string :=
  let response :=
    if PyStr.startswith response fence_html
    then PyStr.replace_first response fence_html ""
    else response in
  let response :=
    if PyStr.endswith response fence
    then PyStr.slice_to_neg 3 response
    else response in
  PyStr.strip response.

(** ** Exceptions *)

(** The classes the handlers tell apart, those the code raises itself, and
    any other class by its name (taken not to derive from a class that a
    handler names). *)
Inductive exn_class :=
| JSONDecodeError | TypeError | ValueError | KeyError | IndexError
| FileNotFoundError | RuntimeError | PdfReadError
| OtherError (name : string).

(** An exception: its class and [str(e)]. *)
Record exn := Exn { exn_cls : exn_class; exn_msg : string }.

(** Caught by [except (json.JSONDecodeError, TypeError)]. *)
Definition is_parse_error (e : exn) : bool :=
  match exn_cls e with JSONDecodeError | TypeError => true | _ => false end.

(** ** The event trace

    What a function does besides returning: warnings and errors logged
    through [app.logger], calls of [log_error] and [log_component], calls to
    the generative endpoint, and sleeps (in seconds).  Lines logged at the
    info and debug levels are left out. *)
Inductive level := WARNING | ERROR.

Inductive event :=
| Log (lvl : level) (msg : string)
| LogError (component : string) (e : exn)
| LogComponent (name : string)
| GenerateContent (prompt : string)
| Sleep (secs : Z).

(** [Sleep secs] stands for a call of [time.sleep] that returned. *)
Definition is_call (e : event) : bool :=
  match e with GenerateContent _ => true | _ => false end.

(** Number of calls made to the generative endpoint. *)
Definition attempts (tr : list event) : nat := length (filter is_call tr).

(** The sleeps, in order. *)
Definition sleeps (tr : list event) : list Z :=
  omap (fun e => match e with Sleep d => Some d | _ => None end) tr.

(** ** Validation: [validate_table_detection_response] *)

Definition required_fields : list string := ["tableDetected"; "confidenceScore"].

Definition warn_not_dict : string := "[Validation WARN] Response is not a dict".
Definition warn_missing : string := "[Validation WARN] Response missing required fields".
Definition warn_not_bool : string := "[Validation WARN] 'tableDetected' field is not bool".
Definition warn_not_number : string :=
  "[Validation WARN] 'confidenceScore' field is not int/float".
Definition warn_out_of_range : string :=
  "[Validation WARN] 'confidenceScore' out of range [0.0, 1.0]".

(** Returns the verdict and the lines it logged. *)
Definition validate_table_detection_response (response : pyval)
  : bool * list event :=
  match response with
  | PyDict d =>
      if negb (forallb (fun field => bool_decide (is_Some (d !! field)))
                       required_fields)
      then (false, [Log WARNING warn_missing])
      else
        match d !! "tableDetected", d !! "confidenceScore" with
        | Some td, Some cs =>
            if negb (isinstance_bool td) then (false, [Log WARNING warn_not_bool])
            else if negb (isinstance_int_float cs)
            then (false, [Log WARNING warn_not_number])
            else if negb (in_unit_interval cs)
            then (true, [Log WARNING warn_out_of_range])
            else (true, [])
        | _, _ => (false, [Log WARNING warn_missing])
        end
  | _ => (false, [Log WARNING warn_not_dict])
  end.

(** ** The generative endpoint *)

(** [response.prompt_feedback], both fields as they print in an f-string. *)
Record prompt_feedback := { block_reason : string; safety_ratings : string }.

(** One call of [model_instance.generate_content]: it raises, or answers
    without candidates or parts, or answers with a text. *)
Inductive gen_result :=
| Raises (e : exn)
| Empty (feedback : option prompt_feedback)
| Text (t : string).

Definition finish_reason_of (fb : option prompt_feedback) : string :=
  match fb with Some f => block_reason f | None => "Unknown" end.

Definition safety_of (fb : option prompt_feedback) : string :=
  match fb with Some f => safety_ratings f | None => "N/A" end.

(** [type(v)] as an f-string prints it. *)
Definition type_repr (v : pyval) : string :=
  match v with
  | PyNone => "<class 'NoneType'>"
  | PyBool _ => "<class 'bool'>"
  | PyInt _ => "<class 'int'>"
  | PyFloat _ => "<class 'float'>"
  | PyStr _ => "<class 'str'>"
  | PyList _ => "<class 'list'>"
  | PyDict _ => "<class 'dict'>"
  end.

(** [type(v).__name__], as the message of a [TypeError] prints it. *)
Definition type_name (v : pyval) : string :=
  match v with
  | PyNone => "NoneType"
  | PyBool _ => "bool"
  | PyInt _ => "int"
  | PyFloat _ => "float"
  | PyStr _ => "str"
  | PyList _ => "list"
  | PyDict _ => "dict"
  end.

(** ** The environment: configuration and external collaborators *)

(** The content of one PDF page, opaque to the pipeline. *)
Definition page : Type := string.

(** The content of a file of the work area. *)
Inductive file :=
| HtmlFile (text : string)
| PdfFile (pages : list page)
| Images (names : list string) (* the images of one page, by their names *)
| Unreadable.                  (* not a PDF that PyPDF2 can open *)

(** A write that fails: the exception, and what the failure leaves at the
    path.  [None] when nothing was opened (the file is as it was); the
    content of the file when it was opened for writing, hence created or
    truncated, before the exception. *)
Record write_failure := { write_exn : exn; left_behind : option file }.

(** What [pdfkit.from_file] does: it raises, or returns after writing (or
    not) the converted document. *)
Inductive pdfkit_result :=
| PdfkitRaises (e : exn)
| PdfkitDone (out : option file).

(** ** The work area

    The files the pipeline reads and writes, by their place in the
    temporary directory; [n] is the 1-based page number.  The work area
    holds files: the three folders are not entries of it.  The images that
    the rasterizer leaves for one page are one entry; the task of a page is
    taken to find the images of its own page only. *)
Inductive path :=
| input_pdf                      (* the source document *)
| split_page (n : nat)           (* splitter/page_{n}.pdf *)
| page_images (n : nat)          (* pdfImages/page_{n}*.png *)
| original_for_merge (n : nat)   (* splitter/page_{n}_original_for_merge.pdf *)
| full_html (n : nat)            (* tableContainerHTML/page_{n}_full.html *)
| converted_pdf (n : nat)        (* tableContainerHTML/page_{n}_converted.pdf *)
| final_merged.                  (* final_merged.pdf *)

#[global] Instance path_eq_dec : EqDecision path.
Proof. solve_decision. Defined.

Definition path_to_pair (p : path) : nat * nat :=
  match p with
  | input_pdf => (0, 0)
  | split_page n => (1, n)
  | original_for_merge n => (2, n)
  | full_html n => (3, n)
  | converted_pdf n => (4, n)
  | final_merged => (5, 0)
  | page_images n => (6, n)
  end.

Definition pair_to_path (c : nat * nat) : option path :=
  match c with
  | (0, _) => Some input_pdf
  | (1, n) => Some (split_page n)
  | (2, n) => Some (original_for_merge n)
  | (3, n) => Some (full_html n)
  | (4, n) => Some (converted_pdf n)
  | (5, _) => Some final_merged
  | (6, n) => Some (page_images n)
  | _ => None
  end.

#[global] Instance path_countable : Countable path.
Proof. refine (inj_countable path_to_pair pair_to_path _). by intros []. Defined.

(** [p.name] (that of the source document and of the images of a page are
    never printed from a path of the work area). *)
Definition path_name (p : path) : string :=
  match p with
  | input_pdf => "input.pdf"
  | page_images n => "page_" +:+ pretty n +:+ "*.png"
  | split_page n => "page_" +:+ pretty n +:+ ".pdf"
  | original_for_merge n => "page_" +:+ pretty n +:+ "_original_for_merge.pdf"
  | full_html n => "page_" +:+ pretty n +:+ "_full.html"
  | converted_pdf n => "page_" +:+ pretty n +:+ "_converted.pdf"
  | final_merged => "final_merged.pdf"
  end.

(** [page_{n}.png] *)
Definition image_name (page_num : nat) : string :=
  "page_" +:+ pretty page_num +:+ ".png".

(** What the rasterizer leaves in [pdfImages] for one page when it
    returns: whether the expected [page_{n}.png] is there, and the names
    matching [page_{n}*.png], in the order in which [glob] yields them. *)
Record raster_output := { exact_exists : bool; glob_matches : list string }.

Record env := {
  GEMINI_API_KEY : option string;
  (* the text of TABLE_DETECTION_PROMPT_TEMPLATE around its placeholder *)
  detection_prompt_head : string;
  detection_prompt_tail : string;
  (* HTML_FROM_IMAGE_PROMPT_TEMPLATE.format(image name, ocr text) *)
  html_prompt : string -> string -> string;
  (* json.loads: the decoded value, or the exception it raises, which is a
     JSONDecodeError on a malformed text and may be another one
     (RecursionError on deep nesting, ValueError on a number too long) *)
  json_loads : string -> exn + pyval;
  (* repr(): how an f-string prints an object that is not a string, and how
     the message of an OSError prints its file name *)
  repr : pyval -> string;
  (* str(p) of a path of the work area *)
  path_str : path -> string;
  (* what PyPDF2 raises on a file that it cannot read *)
  pdf_read_error : path -> exn;
  (* the classification endpoint: page number, attempt *)
  classify_endpoint : nat -> nat -> gen_result;
  (* the synthesis endpoint: page number *)
  synthesis_endpoint : nat -> gen_result;
  (* time.sleep on a length beyond 4294967 seconds: what it raises where
     the clock refuses the length (OverflowError, OSError) *)
  long_sleep_error : Z -> option exn;
  (* os.mkdir of the three work folders *)
  mkdir_error : option exn;
  (* extracting and writing the split page of a page index *)
  split_write_error : nat -> option write_failure;
  (* pdf2image.convert_from_path for a page number *)
  convert_from_path : nat -> exn + raster_output;
  (* the images it leaves for a page number when it raises *)
  partial_images : nat -> list string;
  (* Image.open + pytesseract.image_to_string on an image name *)
  image_to_string : string -> exn + string;
  (* Image.open in the synthesizer, on an image name *)
  image_open_error : string -> option exn;
  (* writing the synthesized markup of a page number *)
  html_write_error : nat -> option write_failure;
  (* removing the split page of a page number *)
  unlink_error : nat -> option exn;
  (* pdfkit.from_file for a page number and the markup artifact found *)
  pdfkit_from_file : nat -> file -> pdfkit_result;
  (* extracting and writing the original page of a page index in the merge *)
  original_write_error : nat -> option write_failure;
  (* writing final_merged.pdf *)
  final_write_error : option write_failure
}.

(** [time.sleep(secs)] on an integer, [None] when it returns.  CPython
    refuses a negative length; it takes a length of up to 4294967 seconds
    on every platform, and a longer one unless the clock of the platform
    refuses it. *)
Definition time_sleep (E : env) (secs : Z) : option exn :=
  if (secs <? 0)%Z
  then Some (Exn ValueError "sleep length must be non-negative")
  else if (secs <=? 4294967)%Z then None
  else long_sleep_error E secs.

(** [not GEMINI_API_KEY] *)
Definition api_key_missing (E : env) : bool :=
  match GEMINI_API_KEY E with
  | None => true
  | Some k => String.eqb k ""
  end.

(** ** The retrying call: [call_gemini_for_json] *)

(** [{"error": msg}] *)
Definition error_dict (msg : string) : gmap string pyval :=
  {["error" := PyStr msg]}.

Definition empty_or_blocked_msg (fb : option prompt_feedback) : string :=
  "Gemini response empty or blocked. Finish Reason: " +:+ finish_reason_of fb
  +:+ ", Safety: " +:+ safety_of fb.

Definition not_a_dict_msg (v : pyval) : string :=
  "Parsed response is not a dictionary (type: " +:+ type_repr v +:+ ")".

Definition retries_exhausted_msg (max_retries : nat) (e : exn) : string :=
  "Gemini API call failed after " +:+ pretty max_retries +:+ " attempts: "
  +:+ exn_msg e.

(** The handler [except (json.JSONDecodeError, TypeError) as json_err]. *)
Definition parse_error_return (json_err : exn) (response_text_for_logging : string)
  : gmap string pyval * list event :=
  (<["raw_text" := PyStr response_text_for_logging]>
     (error_dict ("Failed to parse Gemini response as JSON: " +:+ exn_msg json_err)),
   [LogError "Gemini JSON Parsing Error" json_err]).

(** The body of [for attempt in range(max_retries)], from [attempt] on, with
    [remaining] iterations left.  [generate_content k] is what the endpoint
    does at the call of attempt [k].  The result is the returned dictionary,
    or the exception that [time.sleep] raises in the handler, which leaves
    the function; and the trace. *)
Fixpoint attempt_loop (E : env) (generate_content : nat -> gen_result)
  (prompt : string) (max_retries : nat) (delay : Z)
  (remaining attempt : nat) (response_text_for_logging : string)
  : (exn + gmap string pyval) * list event :=
  match remaining with
  | O =>
      (inr (error_dict ("Gemini API call failed unexpectedly after "
                        +:+ pretty max_retries +:+ " attempts.")), [])
  | S remaining' =>
      (* an exception [e] raised in the [try] block after the trace [tr] *)
      let handle (e : exn) (tr : list event) (text : string) :=
        if is_parse_error e then
          let '(r, tr') := parse_error_return e text in (inr r, tr ++ tr')
        else if attempt <? max_retries - 1 then
          let current_delay := (delay * 2 ^ Z.of_nat attempt)%Z in
          let tr := tr ++ [LogError "Gemini API Call/Processing Error" e;
                           Log WARNING "Gemini call failed. Retrying"] in
          match time_sleep E current_delay with
          | Some sleep_err => (inl sleep_err, tr)
          | None =>
              let '(r, tr') :=
                attempt_loop E generate_content prompt max_retries delay
                  remaining' (S attempt) text in
              (r, tr ++ [Sleep current_delay] ++ tr')
          end
        else
          (inr (error_dict (retries_exhausted_msg max_retries e)),
           tr ++ [LogError "Gemini API Call/Processing Error" e;
                  Log ERROR "Gemini API call failed"]) in
      match generate_content attempt with
      | Raises e => handle e [GenerateContent prompt] response_text_for_logging
      | Empty fb =>
          let error_msg := empty_or_blocked_msg fb in
          let tr := [GenerateContent prompt;
                     LogError "Gemini Call Error" (Exn ValueError error_msg)] in
          if negb (String.eqb (finish_reason_of fb) "STOP")
          then (inr (error_dict error_msg), tr)
          else handle (Exn ValueError error_msg) tr response_text_for_logging
      | Text t =>
          match json_loads E t with
          | inl e => handle e [GenerateContent prompt] t
          | inr (PyDict parsed_json) => (inr parsed_json, [GenerateContent prompt])
          | inr v => handle (Exn TypeError (not_a_dict_msg v)) [GenerateContent prompt] t
          end
      end
  end.

(** Building the model object and its configuration is taken not to raise,
    nor is reading the text of an answer that has parts. *)
Definition call_gemini_for_json (E : env) (generate_content : nat -> gen_result)
  (prompt : string) (max_retries : nat) (delay : Z)
  : (exn + gmap string pyval) * list event :=
  if api_key_missing E then
    (inr (error_dict "GEMINI_API_KEY not configured."),
     [LogError "Gemini Call" (Exn ValueError "GEMINI_API_KEY not configured.")])
  else attempt_loop E generate_content prompt max_retries delay max_retries 0 "".

(** ** Table detection: [detect_table] *)

(** [wrap_prompt(TABLE_DETECTION_PROMPT_TEMPLATE, {"pdf_page_text": page_text})]:
    the template has this one placeholder, so the substitution cannot fail. *)
Definition wrap_prompt (E : env) (page_text : string) : string :=
  detection_prompt_head E +:+ page_text +:+ detection_prompt_tail E.

(** The dictionary [detect_table] returns: its keys [response] and [error]
    ([None] is [PyNone]). *)
Record detection_result := {
  det_response : gmap string pyval;
  det_error : pyval
}.

(** [{"tableDetected": False, "confidenceScore": 0.0}] *)
Definition default_detection : gmap string pyval :=
  <["confidenceScore" := PyFloat 0%float]> {["tableDetected" := PyBool false]}.

Definition empty_input_error : string := "Input page text was empty.".
Definition invalid_format_error : string :=
  "Parsed table detection response has invalid format or values.".

(** [call_gemini_for_json] is called with its defaults, [max_retries = 3]
    and [delay = 5].  What it raises is caught by the handler of the [try]
    block, which leaves the response empty. *)
Definition detect_table (E : env) (generate_content : nat -> gen_result)
  (page_text : string) : detection_result * list event :=
  if negb (truthy (PyStr page_text)) || negb (truthy (PyStr (PyStr.strip page_text)))
  then
    ({| det_response := default_detection; det_error := PyStr empty_input_error |},
     [Log WARNING "[WARN] detect_table called with empty page_text.";
      LogComponent "detectTable_EmptyInput"])
  else
    let prompt := wrap_prompt E page_text in
    match call_gemini_for_json E generate_content prompt 3 5 with
    | (inl e, tr) =>
        ({| det_response := ∅; det_error := PyStr (exn_msg e) |},
         tr ++ [LogError "Table Detection Pipeline Error" e])
    | (inr parsed_data, tr) =>
        match parsed_data !! "error" with
        | Some err => ({| det_response := parsed_data; det_error := err |}, tr)
        | None =>
            let '(valid, trv) :=
              validate_table_detection_response (PyDict parsed_data) in
            if negb valid then
              ({| det_response := parsed_data;
                  det_error := PyStr invalid_format_error |},
               tr ++ trv ++ [LogError "Table Detection Validation"
                               (Exn ValueError invalid_format_error)])
            else ({| det_response := parsed_data; det_error := PyNone |}, tr ++ trv)
        end
    end.

(** ** Reading a document *)

(** Why a file cannot be read as a document. *)
Inductive read_failure := NoSuchFile | NotAPdf.

(** [PdfReader(str(p)).pages] *)
Definition PdfReader (fs : gmap path file) (p : path) : read_failure + list page :=
  match fs !! p with
  | Some (PdfFile pages) => inr pages
  | Some _ => inl NotAPdf
  | None => inl NoSuchFile
  end.

(** The exception that [PdfReader(str(p))] raises then: the
    [FileNotFoundError] of [open], or what PyPDF2 raises. *)
Definition read_exn (E : env) (p : path) (why : read_failure) : exn :=
  match why with
  | NoSuchFile =>
      Exn FileNotFoundError ("[Errno 2] No such file or directory: "
                             +:+ repr E (PyStr (path_str E p)))
  | NotAPdf => pdf_read_error E p
  end.

(** ** Code that reads and writes the work area, logs and may raise *)

Definition task (A : Type) : Type :=
  gmap path file -> (exn + A) * gmap path file * list event.

#[global] Instance task_ret : MRet task :=
  fun A a fs => (inr a, fs, []).

#[global] Instance task_bind : MBind task :=
  fun A B k m fs =>
    match m fs with
    | (inl e, fs', tr) => (inl e, fs', tr)
    | (inr a, fs', tr) => let '(r, fs'', tr') := k a fs' in (r, fs'', tr ++ tr')
    end.

Definition raise {A : Type} (e : exn) : task A := fun fs => (inl e, fs, []).

Definition emit (tr : list event) : task unit := fun fs => (inr tt, fs, tr).

Definition write_file (p : path) (f : file) : task unit :=
  fun fs => (inr tt, <[p := f]> fs, []).

(** A write that fails: what it leaves at the path, then the exception. *)
Definition fail_write {A : Type} (p : path) (w : write_failure) : task A :=
  fun fs =>
    (inl (write_exn w),
     match left_behind w with Some f => <[p := f]> fs | None => fs end, []).

(** [try: m  except Exception as e: h e] *)
Definition try_catch {A : Type} (m : task A) (h : exn -> task A) : task A :=
  fun fs =>
    match m fs with
    | (inl e, fs', tr) => let '(r, fs'', tr') := h e fs' in (r, fs'', tr ++ tr')
    | r => r
    end.

(** ** Markup synthesis: [extract_full_page_html_from_image] *)

(** The dictionary it returns: its keys [html] and [error]. *)
Record html_result := {
  html : string;
  html_error : option string
}.

Definition empty_blocked_msg (fb : option prompt_feedback) : string :=
  "Gemini response empty/blocked. Finish Reason: " +:+ finish_reason_of fb
  +:+ ", Safety: " +:+ safety_of fb.

(** [generate_content] is what the endpoint does at the one call made here.
    A blocked response has no text to keep ([response.text] raises
    [ValueError]), so [html] stays empty then. *)
Definition extract_full_page_html_from_image (E : env)
  (generate_content : gen_result) (image_path ocr_text : string)
  : html_result * list event :=
  if api_key_missing E then
    ({| html := ""; html_error := Some "GEMINI_API_KEY not configured." |},
     [LogError "Full Page HTML Gen" (Exn ValueError "GEMINI_API_KEY not configured.")])
  else
    match image_open_error E image_path with
    | Some img_err =>
        let msg :=
          match exn_cls img_err with
          | FileNotFoundError => "Image file not found at path: " +:+ image_path
          | _ => "Error opening/converting image file " +:+ image_path +:+ ": "
                 +:+ exn_msg img_err
          end in
        ({| html := ""; html_error := Some msg |},
         [LogError "Full Page HTML Image Load Error"
            match exn_cls img_err with
            | FileNotFoundError => Exn FileNotFoundError msg
            | _ => img_err
            end])
    | None =>
        let prompt_text :=
          html_prompt E ("the provided image (" +:+ image_path +:+ ")") ocr_text in
        match generate_content with
        | Raises e =>
            ({| html := ""; html_error := Some (exn_msg e) |},
             [GenerateContent prompt_text;
              LogError "Full Page HTML Generation Pipeline Error" e])
        | Empty fb =>
            let error_msg := empty_blocked_msg fb in
            ({| html := ""; html_error := Some error_msg |},
             [GenerateContent prompt_text;
              LogError "Full Page HTML Generation Error" (Exn ValueError error_msg)])
        | Text t =>
            let html_code := PyStr.strip t in
            ({| html := html_code; html_error := None |},
             GenerateContent prompt_text ::
             if String.eqb html_code ""
             then [Log WARNING "Full page HTML generation resulted in empty content";
                   LogComponent "extractFullPageHTML_EmptyResult"]
             else [])
        end
    end.

(** ** The page splitter: [save_pdf_page] *)

Definition save_pdf_page (E : env) (reader : list page) (page_num : nat)
  (output_path : path) : task unit :=
  match reader !! page_num with
  | None =>
      raise (Exn IndexError ("Page number " +:+ pretty page_num
                             +:+ " is out of range for PDF with "
                             +:+ pretty (length reader) +:+ " pages."))
  | Some pg =>
      match split_write_error E page_num with
      | Some w =>
          try_catch (fail_write output_path w)
            (fun e =>
               emit [LogError "Save PDF Page Error" e];;
               raise (Exn RuntimeError ("Failed to save page "
                                        +:+ pretty (page_num + 1)
                                        +:+ " to " +:+ path_str E output_path)))
      | None => write_file output_path (PdfFile [pg])
      end
  end.

(** ** The page task: [process_single_page] *)

(** The images found for a page after a conversion that returned. *)
Definition found_images (page_num : nat) (out : raster_output) : list string :=
  (if exact_exists out then [image_name page_num] else []) ++ glob_matches out.

(** The conversion leaves images in [pdfImages]. *)
Definition leave_images (page_num : nat) (names : list string) : task unit :=
  match names with
  | [] => mret tt
  | _ => write_file (page_images page_num) (Images names)
  end.

(** The rasterizer step: the name of the image to read, after the probe for
    the expected name and the fallback on the pattern.  What the probe and
    the pattern find is what the conversion of this page left. *)
Definition rasterize (E : env) (page_num : nat) : task string :=
  try_catch
    (match convert_from_path E page_num with
     | inl e => leave_images page_num (partial_images E page_num);; raise e
     | inr out =>
         leave_images page_num (found_images page_num out);;
         if exact_exists out then mret (image_name page_num)
         else match glob_matches out with
              | found :: _ => emit [Log WARNING "Adjusted image path"];; mret found
              | [] =>
                  raise (Exn FileNotFoundError
                           ("Output image file " +:+ image_name page_num
                            +:+ " (or similar) not found after conversion."))
              end
     end)
    (fun convert_err =>
       raise (Exn RuntimeError ("Failed to convert page " +:+ pretty page_num
                                +:+ " to image: " +:+ exn_msg convert_err))).

(** The OCR step: the stripped text of the page. *)
Definition ocr (E : env) (page_num : nat) (page_image_path : string) : task string :=
  try_catch
    (match image_to_string E page_image_path with
     | inl e => raise e
     | inr text =>
         let page_text := PyStr.strip text in
         (if String.eqb page_text ""
          then emit [Log WARNING "WARN: OCR resulted in empty text."]
          else mret tt);;
         mret page_text
     end)
    (fun ocr_err =>
       raise (Exn RuntimeError ("OCR failed for page " +:+ pretty page_num
                                +:+ ": " +:+ exn_msg ocr_err))).

(** [needle in v] for a string [needle]: [None] when it raises [TypeError]. *)
Definition py_contains (needle : string) (v : pyval) : option bool :=
  match v with
  | PyStr s => Some (PyStr.contains s needle)
  | PyList l =>
      Some (existsb (fun x => match x with
                              | PyStr t => String.eqb t needle
                              | _ => false
                              end) l)
  | PyDict d => Some (bool_decide (is_Some (d !! needle)))
  | _ => None
  end.

(** [str(v)], as an f-string prints [v]. *)
Definition py_str (E : env) (v : pyval) : string :=
  match v with PyStr s => s | _ => repr E v end.

(** The pair [(page_is_successful, page_specific_error_msg)]. *)
Definition page_result : Type := bool * option string.

(** What follows [detect_table] in the [try] block. *)
Definition after_detection (E : env) (page_num : nat)
  (page_image_path page_text : string) (detection_result : detection_result)
  : task page_result :=
  if truthy (det_error detection_result) then
    let err_msg := det_error detection_result in
    emit [Log ERROR "Table Detection Failed."];;
    match py_contains "Input page text was empty" err_msg with
    | None =>
        raise (Exn TypeError ("argument of type '" +:+ type_name err_msg
                              +:+ "' is not iterable"))
    | Some true => mret (true, None)   (* empty text is not a page failure *)
    | Some false => mret (false, Some ("Table Detection: " +:+ py_str E err_msg))
    end
  else
    let parsed_detection := det_response detection_result in
    match parsed_detection !! "tableDetected" with
    | Some (PyBool true) =>
        let '(html_result, trh) :=
          extract_full_page_html_from_image E (synthesis_endpoint E page_num)
            page_image_path page_text in
        emit (trh ++ [LogComponent "extractFullPageHTMLResult"]);;
        let truthy_error :=
          match html_error html_result with
          | Some err_msg => negb (String.eqb err_msg "")
          | None => false
          end in
        if truthy_error then
          let err_msg := default "" (html_error html_result) in
          emit [Log ERROR "Generate Full Page HTML Failed."];;
          mret (false, Some ("HTML Gen: " +:+ err_msg))
        else
          let html_code := html html_result in
          if negb (String.eqb html_code "") then
            let html_code := clean_ai_html_response html_code in
            match html_write_error E page_num with
            | None =>
                write_file (full_html page_num) (HtmlFile html_code);;
                mret (true, None)
            | Some w =>
                try_catch (fail_write (full_html page_num) w)
                  (fun write_err =>
                     let err_msg := "HTML Save Failed: " +:+ exn_msg write_err in
                     emit [Log ERROR "HTML Save Failed"];;
                     mret (false, Some err_msg))
            end
          else
            emit [Log WARNING "Full Page HTML generation resulted in empty content."];;
            mret (true, None)
    | Some (PyBool false) => mret (true, None)
    | _ =>
        let err_msg := "Table Detection invalid response format: "
                       +:+ repr E (PyDict parsed_detection) in
        emit [Log ERROR err_msg];;
        mret (false, Some err_msg)
    end.

(** The [try] block of the task. *)
Definition page_body (E : env) (reader : list page) (page_index : nat)
  : task page_result :=
  let page_num := page_index + 1 in
  save_pdf_page E reader page_index (split_page page_num);;
  page_image_path ← rasterize E page_num;
  page_text ← ocr E page_num page_image_path;
  let '(detection_result, trd) :=
    detect_table E (classify_endpoint E page_num) page_text in
  emit (trd ++ [LogComponent "detectTableResult"]);;
  after_detection E page_num page_image_path page_text detection_result.

(** The removal of the split page in the [finally] clause: a split page
    that is there is removed, or left when the removal raises. *)
Definition unlink_split_page (E : env) (page_num : nat) (fs : gmap path file)
  : gmap path file * list event :=
  match fs !! split_page page_num with
  | Some _ =>
      match unlink_error E page_num with
      | None => (delete (split_page page_num) fs, [])
      | Some _ => (fs, [Log WARNING "[WARN] Error deleting temp PDF"])
      end
  | None => (fs, [])
  end.

(** The task: the [try] block, the handler of whatever it raises, and the
    [finally] clause. *)
Definition process_single_page (E : env) (reader : list page) (page_index : nat)
  (fs : gmap path file) : page_result * gmap path file * list event :=
  let page_num := page_index + 1 in
  let '(r, fs, tr) := page_body E reader page_index fs in
  let '(result, tr_err) :=
    match r with
    | inr result => (result, [])
    | inl page_err =>
        ((false, Some ("Unhandled Page Error: " +:+ exn_msg page_err)),
         [LogError "Process Single Page Unhandled Error" page_err])
    end in
  let '(fs, tr_unlink) := unlink_split_page E page_num fs in
  (result, fs, tr ++ tr_err ++ tr_unlink ++ [LogComponent "PageProcessEnd"]).

(** ** The run over all pages: [process_pdf_in_tempdir] *)

(** The worker pool.  The tasks touch disjoint files and share nothing else,
    so a run of the pool is given by the order in which the tasks complete:
    [order] lists the page indices in that order, each task taking effect
    as a whole.  Returns the results as [as_completed] yields them. *)
Fixpoint run_tasks (E : env) (reader : list page) (order : list nat)
  (fs : gmap path file) : list (nat * page_result) * gmap path file :=
  match order with
  | [] => ([], fs)
  | page_index :: rest =>
      let '(r, fs, _) := process_single_page E reader page_index fs in
      let '(rs, fs) := run_tasks E reader rest fs in
      ((page_index, r) :: rs, fs)
  end.

(** The loop over [as_completed(futures)]: the number of failed pages and
    the summary of the first failure.  ([future.result()] cannot raise: the
    task returns from its [finally] clause.) *)
Definition harvest (results : list (nat * page_result)) : nat * option string :=
  foldl
    (fun (acc : nat * option string) (fut : nat * page_result) =>
       let '(failed_pages_processing_count, overall_processing_error_message) := acc in
       let '(page_index, (page_success, page_err_msg_future)) := fut in
       if page_success then acc
       else
         (failed_pages_processing_count + 1,
          match overall_processing_error_message with
          | None =>
              Some ("Page " +:+ pretty (page_index + 1) +:+ " error: "
                    +:+ default "None" page_err_msg_future)
          | Some m => Some m
          end))
    (0, None) results.

(** Returns [(final_success, final_error_summary)] and the work area. *)
Definition process_pdf_in_tempdir (E : env) (order : list nat)
  (fs : gmap path file) : (bool * option string) * gmap path file :=
  match mkdir_error E with
  | Some e =>
      ((false, Some ("Could not create temporary subdirectories: " +:+ exn_msg e)), fs)
  | None =>
      match PdfReader fs input_pdf with
      | inl why =>
          let e := read_exn E input_pdf why in
          ((false,
            Some (match exn_cls e with
                  | PdfReadError => "Failed to read/parse PDF (corrupted/password?): "
                  | _ => "Unexpected error reading PDF: "
                  end +:+ exn_msg e)), fs)
      | inr reader =>
          if length reader =? 0 then ((true, None), fs)
          else
            let '(results, fs) := run_tasks E reader order fs in
            let '(failed_pages_processing_count, overall_processing_error_message) :=
              harvest results in
            let final_success :=
              bool_decide (overall_processing_error_message = None)
              && (failed_pages_processing_count =? 0) in
            let final_error_summary :=
              match overall_processing_error_message with
              | Some m => Some m
              | None =>
                  if 0 <? failed_pages_processing_count
                  then Some (pretty failed_pages_processing_count
                             +:+ " pages encountered processing errors.")
                  else None
              end in
            ((final_success, final_error_summary), fs)
      end
  end.

(** ** The final merge: [merge_final_pdf] *)

(** The variables of the loop: the pages added to [merger] so far, the two
    status variables, and the work area. *)
Record merge_state := {
  merger : list page;
  merge_is_successful : bool;
  overall_merge_error_message : option string;
  merge_fs : gmap path file
}.

(** [merge_is_successful = False] and
    [if not overall_merge_error_message: overall_merge_error_message = err_msg] *)
Definition degrade (err_msg : string) (st : merge_state) : merge_state :=
  {| merger := merger st;
     merge_is_successful := false;
     overall_merge_error_message :=
       match overall_merge_error_message st with
       | Some m => if String.eqb m "" then Some err_msg else Some m
       | None => Some err_msg
       end;
     merge_fs := merge_fs st |}.

Definition set_fs (fs : gmap path file) (st : merge_state) : merge_state :=
  {| merger := merger st;
     merge_is_successful := merge_is_successful st;
     overall_merge_error_message := overall_merge_error_message st;
     merge_fs := fs |}.

(** [merger.add_page(pg)] *)
Definition add_page (pg : page) (st : merge_state) : merge_state :=
  {| merger := merger st ++ [pg];
     merge_is_successful := merge_is_successful st;
     overall_merge_error_message := overall_merge_error_message st;
     merge_fs := merge_fs st |}.

(** The conversion of the markup artifact, when there is one: the path to
    add (with its description) unless the fallback must run. *)
Definition convert_html (E : env) (page_num : nat) (st : merge_state)
  : option (path * string) * merge_state :=
  match merge_fs st !! full_html page_num with
  | Some html_file =>
      match pdfkit_from_file E page_num html_file with
      | PdfkitDone out =>
          let fs :=
            match out with
            | Some f => <[converted_pdf page_num := f]> (merge_fs st)
            | None => merge_fs st
            end in
          (Some (converted_pdf page_num, "HTML conversion"), set_fs fs st)
      | PdfkitRaises e =>
          (None, degrade ("Page " +:+ pretty page_num +:+ " HTML conversion failed: "
                          +:+ exn_msg e) st)
      end
  | None => (None, st)
  end.

(** The fallback: the original page, written to a file of its own.  [None]
    when the page is skipped ([continue]). *)
Definition original_page (E : env) (reader : list page) (i : nat)
  (st : merge_state) : option (path * string) * merge_state :=
  let page_num := i + 1 in
  let failed (msg : string) :=
    (None, degrade ("Page " +:+ pretty page_num
                    +:+ " could not be extracted/added from original: " +:+ msg) st) in
  match reader !! i with
  | None => failed "sequence index out of range"
  | Some pg =>
      match original_write_error E i with
      | Some w =>
          let '(r, st) := failed (exn_msg (write_exn w)) in
          (r, match left_behind w with
              | Some f => set_fs (<[original_for_merge page_num := f]> (merge_fs st)) st
              | None => st
              end)
      | None =>
          (Some (original_for_merge page_num, "Original PDF"),
           set_fs (<[original_for_merge page_num := PdfFile [pg]]> (merge_fs st)) st)
      end
  end.

(** Reading the chosen file back and adding its first page. *)
Definition append_from (E : env) (page_num : nat) (page_to_add_path : path)
  (source_description : string) (st : merge_state) : merge_state :=
  if bool_decide (is_Some (merge_fs st !! page_to_add_path)) then
    match PdfReader (merge_fs st) page_to_add_path with
    | inr (pg :: _) => add_page pg st
    | inr [] =>
        degrade ("Page " +:+ pretty page_num +:+ " from " +:+ source_description
                 +:+ " was empty.") st
    | inl why =>
        let merge_err := read_exn E page_to_add_path why in
        degrade ("Page " +:+ pretty page_num +:+ " merging failed from source "
                 +:+ path_name page_to_add_path +:+ ": " +:+ exn_msg merge_err) st
    end
  else degrade ("Page " +:+ pretty page_num +:+ " source PDF missing.") st.

(** One iteration of [for i in range(total_pages)]. *)
Definition merge_page (E : env) (reader : list page) (st : merge_state) (i : nat)
  : merge_state :=
  let page_num := i + 1 in
  let '(page_to_add, st) := convert_html E page_num st in
  let '(page_to_add, st) :=
    match page_to_add with
    | Some p => (Some p, st)
    | None => original_page E reader i st
    end in
  match page_to_add with
  | Some (page_to_add_path, source_description) =>
      append_from E page_num page_to_add_path source_description st
  | None => st
  end.

Definition merge_init (fs : gmap path file) : merge_state :=
  {| merger := []; merge_is_successful := true;
     overall_merge_error_message := None; merge_fs := fs |}.

(** The loop over all pages of the source document. *)
Definition merge_loop (E : env) (reader : list page) (fs : gmap path file)
  : merge_state :=
  foldl (merge_page E reader) (merge_init fs) (seq 0 (length reader)).

(** Returns [(merge_is_successful, final_output_pdf_path,
    overall_merge_error_message)] and the work area. *)
Definition merge_final_pdf (E : env) (fs : gmap path file)
  : (bool * option path * option string) * gmap path file :=
  match PdfReader fs input_pdf with
  | inl why =>
      ((false, None,
        Some ("Unhandled merge error: " +:+ exn_msg (read_exn E input_pdf why))), fs)
  | inr input_pdf_reader =>
      let st := merge_loop E input_pdf_reader fs in
      if 0 <? length (merger st) then
        match final_write_error E with
        | None =>
            ((merge_is_successful st, Some final_merged,
              overall_merge_error_message st),
             <[final_merged := PdfFile (merger st)]> (merge_fs st))
        | Some w =>
            ((false, None,
              Some ("Unhandled merge error: " +:+ exn_msg (write_exn w))),
             match left_behind w with
             | Some f => <[final_merged := f]> (merge_fs st)
             | None => merge_fs st
             end)
        end
      else
        let st := degrade "No pages could be merged." st in
        ((false, None, overall_merge_error_message st), merge_fs st)
  end.

(** The pages of the document the merge produced, if it produced one. *)
Definition output_pages (r : (bool * option path * option string) * gmap path file)
  : option (list page) :=
  match r with
  | ((_, Some p, _), fs) =>
      match fs !! p with
      | Some (PdfFile pages) => Some pages
      | _ => None
      end
  | ((_, None, _), _) => None
  end.

(** ** The run verdict *)

Inductive verdict := Succeeded | SucceededDegraded | Failed.

(** Modelled from the spec: the caller of [process_pdf_in_tempdir] and
    [merge_final_pdf], which forms the tri-state verdict of a run that
    reached the merge, is not in the source.  No output artifact is a failed
    run; full success requires no page-level failure and a successful merge
    with no degraded substitution; any other run that produced its output
    succeeded with degraded pages. *)
Definition run_verdict (processing : bool * option string)
  (merge : bool * option path * option string) : verdict :=
  match merge with
  | (_, None, _) => Failed
  | (merge_ok, Some _, _) =>
      if fst processing && merge_ok then Succeeded else SucceededDegraded
  end.

(** ** Upload checks: [allowed_file] and [validate_file] *)

(** [c.lower()] on a code point below 256: the ASCII capitals and the
    Latin-1 capitals (all of [0xC0..0xDE] but the multiplication sign). *)
Definition lower_char (c : ascii) : ascii :=
  let n := nat_of_ascii c in
  if ((65 <=? n) && (n <=? 90))
     || ((192 <=? n) && (n <=? 222) && negb (n =? 215))
  then ascii_of_nat (n + 32) else c.

(** [s.lower()] *)
Fixpoint lower (s : string) : string :=
  match s with
  | EmptyString => EmptyString
  | String c s' => String (lower_char c) (lower s')
  end.

(** The two sides of the last [sep] of [s], if [s] holds one. *)
Fixpoint split_last (s : string) (sep : ascii) : option (string * string) :=
  match s with
  | EmptyString => None
  | String c s' =>
      match split_last s' sep with
      | Some (before, after) => Some (String c before, after)
      | None => if Ascii.eqb c sep then Some (EmptyString, s') else None
      end
  end.

(** [s.rsplit(sep, 1)] for a separator of one character. *)
Definition rsplit_once (s : string) (sep : ascii) : list string :=
  match split_last s sep with
  | Some (before, after) => [before; after]
  | None => [s]
  end.

Definition ALLOWED_EXTENSIONS : gmap string string :=
  <["pdf" := "application/pdf"]>
    (<["png" := "image/png"]>
       (<["jpg" := "image/jpeg"]>
          (<["jpeg" := "image/jpeg"]> {["gif" := "image/gif"]}))).

Definition MAX_CONTENT_LENGTH : Z := 10 * 1024 * 1024.

(** The index [[1]] is only evaluated when the name holds a dot, so it
    cannot raise. *)
Definition allowed_file (filename : string) : bool :=
  PyStr.contains filename "."
  && match rsplit_once filename "." !! 1 with
     | Some extension => bool_decide (is_Some (ALLOWED_EXTENSIONS !! lower extension))
     | None => false
     end.

(** What [validate_file] reads of an uploaded file. *)
Record file_storage := { filename : string; content_length : Z }.

(** The letter e with an acute accent, as one code point. *)
Definition e_acute : string := String (ascii_of_nat 233) EmptyString.

Definition msg_no_file : string :=
  "Aucun fichier n'a " +:+ e_acute +:+ "t" +:+ e_acute +:+ " fourni".
Definition msg_no_selection : string :=
  "Aucun fichier s" +:+ e_acute +:+ "lectionn" +:+ e_acute.
Definition msg_not_allowed : string := "Type de fichier non autoris" +:+ e_acute.
Definition msg_too_large : string := "Fichier trop volumineux".

Definition validate_file (file : option file_storage) : bool * string :=
  match file with
  | None => (false, msg_no_file)
  | Some file =>
      if String.eqb (filename file) "" then (false, msg_no_selection)
      else if negb (allowed_file (filename file)) then (false, msg_not_allowed)
      else if negb (content_length file =? 0)%Z
              && (MAX_CONTENT_LENGTH <? content_length file)%Z
      then (false, msg_too_large)
      else (true, "")
  end.

(** ** Notions used to state the properties *)

(** The line feed, and the fenced document of the specification:
    the fence, [html], a line feed, the document, a line feed, the fence. *)
Definition newline : string := String "010"%char EmptyString.

Definition fenced_example : string :=
  fence_html +:+ newline +:+ "<html>...</html>" +:+ newline +:+ fence.


(** [{"tableDetected": td, "confidenceScore": cs}] *)
Definition detection_response (td cs : pyval) : gmap string pyval :=
  <["confidenceScore" := cs]> {["tableDetected" := td]}.

(** An exception that is neither a [JSONDecodeError] nor a [TypeError]. *)
Definition not_a_parse_error (e : exn) : bool :=
  match exn_cls e with
  | JSONDecodeError | TypeError => false
  | _ => true
  end.

(** The message built for an answer without candidates or parts. *)
Definition blocked_message (fb : option prompt_feedback) : string :=
  match fb with
  | Some f =>
      "Gemini response empty or blocked. Finish Reason: " +:+ block_reason f
      +:+ ", Safety: " +:+ safety_ratings f
  | None => "Gemini response empty or blocked. Finish Reason: Unknown, Safety: N/A"
  end.

(** An attempt that the retry loop takes for transient: the call raised
    something other than a parse error, or the answer was empty with the
    normal stop reason, or decoding its text raised something other than a
    parse error. *)
Definition retryable (E : env) (r : gen_result) : bool :=
  match r with
  | Raises e => not_a_parse_error e
  | Empty (Some f) => String.eqb (block_reason f) "STOP"
  | Empty None => false
  | Text t =>
      match json_loads E t with
      | inl e => not_a_parse_error e
      | inr _ => false
      end
  end.

(** The exception a failed attempt leaves in the handler. *)
Definition error_of (E : env) (r : gen_result) : exn :=
  match r with
  | Raises e => e
  | Empty fb => Exn ValueError (blocked_message fb)
  | Text t =>
      match json_loads E t with
      | inl e => e
      | inr _ => Exn ValueError ""
      end
  end.

(** How an f-string prints the type of a decoded value. *)
Definition printed_type (v : pyval) : string :=
  match v with
  | PyNone => "<class 'NoneType'>"
  | PyBool _ => "<class 'bool'>"
  | PyInt _ => "<class 'int'>"
  | PyFloat _ => "<class 'float'>"
  | PyStr _ => "<class 'str'>"
  | PyList _ => "<class 'list'>"
  | PyDict _ => "<class 'dict'>"
  end.

(** The answer is a text that is not a JSON dictionary: [json.loads] raises
    a [JSONDecodeError] on it, or decodes it to something else.  The
    message of the parse error it causes. *)
Definition parse_failure (E : env) (t : string) : option string :=
  match json_loads E t with
  | inl e =>
      match exn_cls e with
      | JSONDecodeError | TypeError => Some (exn_msg e)
      | _ => None
      end
  | inr (PyDict _) => None
  | inr v => Some ("Parsed response is not a dictionary (type: "
                   +:+ printed_type v +:+ ")")
  end.

(** A length that [time.sleep] takes. *)
Definition sleepable (secs : Z) : Prop := (0 ≤ secs ≤ 4294967)%Z.

(** The sleeps of the first [k] retries. *)
Definition backoff (delay : Z) (k : nat) : list Z :=
  map (fun j => (delay * 2 ^ Z.of_nat j)%Z) (seq 0 k).

(** What page index [i] contributes to the merged document, read off the
    work area the merge starts from: the first page of the converted
    markup when there is a markup artifact and the conversion returns, the
    original page when there is none or the conversion raises, and nothing
    when the chosen document is missing, unreadable or empty, or the
    original cannot be extracted. *)
Definition original_contribution (E : env) (reader : list page) (i : nat)
  : option page :=
  match original_write_error E i with
  | Some _ => None
  | None => reader !! i
  end.

Definition page_contribution (E : env) (reader : list page)
  (fs : gmap path file) (i : nat) : option page :=
  match fs !! full_html (i + 1) with
  | Some html_file =>
      match pdfkit_from_file E (i + 1) html_file with
      | PdfkitDone out =>
          match (match out with
                 | Some f => Some f
                 | None => fs !! converted_pdf (i + 1)
                 end) with
          | Some (PdfFile (pg :: _)) => Some pg
          | _ => None
          end
      | PdfkitRaises _ => original_contribution E reader i
      end
  | None => original_contribution E reader i
  end.

(** The renderer raises on the markup artifact of page index [i]. *)
Definition conversion_fails (E : env) (fs : gmap path file) (i : nat) : Prop :=
  ∃ h e, fs !! full_html (i + 1) = Some h
         ∧ pdfkit_from_file E (i + 1) h = PdfkitRaises e.

(** The files a page task may touch. *)
Definition owned_by (page_index : nat) (p : path) : Prop :=
  p = split_page (page_index + 1) ∨ p = full_html (page_index + 1)
  ∨ p = page_images (page_index + 1).

#[global] Instance owned_by_dec (i : nat) (p : path) : Decision (owned_by i p).
Proof. unfold owned_by. apply _. Defined.

(** The work area a page task leaves. *)
Definition task_effect (E : env) (reader : list page) (page_index : nat)
  (fs : gmap path file) : gmap path file :=
  (process_single_page E reader page_index fs).1.2.

(** The work area the run over all pages leaves, the tasks completing in
    the order [order]. *)
Definition work_area_after (E : env) (order : list nat) (fs : gmap path file)
  : gmap path file :=
  (process_pdf_in_tempdir E order fs).2.

(** The files that the iterations of the merge from page index [a] on read
    are in [fs] as they are in [fs0]. *)
Definition agree_from (a : nat) (fs fs0 : gmap path file) : Prop :=
  ∀ k, a ≤ k →
    fs !! full_html (k + 1) = fs0 !! full_html (k + 1)
    ∧ fs !! converted_pdf (k + 1) = fs0 !! converted_pdf (k + 1).

(** A change of the work area that acts on each path on its own, and only
    on the paths in [P]. *)
Definition pointwise_on (P : path → Prop)
  (u : gmap path file → gmap path file) : Prop :=
  ∃ g : path → option file → option file,
    (∀ fs p, u fs !! p = g p (fs !! p)) ∧ (∀ p o, ¬ P p → g p o = o).

(** A task whose result and trace do not depend on the work area it starts
    from, and which changes it pointwise on [P]. *)
Definition local_task {A : Type} (P : path → Prop) (m : task A) : Prop :=
  ∃ r tr u, pointwise_on P u ∧ ∀ fs, m fs = (r, u fs, tr).

(** ** Test doubles: concrete environments *)

(** Every tool works, the key is set, the pages are blank, the endpoints
    answer [{}] and an empty markup; [json.loads] knows the few bodies used
    in the examples. *)
Definition quiet_env : env :=
  {| GEMINI_API_KEY := Some "key";
     detection_prompt_head := "### INPUT ###";
     detection_prompt_tail := "### OUTPUT FORMAT ###";
     html_prompt := fun image text => image +:+ text;
     json_loads := fun t =>
       if String.eqb t "{}" then inr (PyDict ∅)
       else if String.eqb t "[]" then inr (PyList [])
       else if String.eqb t "table"
       then inr (PyDict (detection_response (PyBool true) (PyFloat 0.75%float)))
       else if String.eqb t "no table"
       then inr (PyDict (detection_response (PyBool false) (PyFloat 0.5%float)))
       else inl (Exn JSONDecodeError "Expecting value: line 1 column 1 (char 0)");
     repr := fun v => match v with
                      | PyStr s => "'" +:+ s +:+ "'"
                      | _ => "<object>"
                      end;
     path_str := fun p =>
       match p with
       | input_pdf => "/tmp/upload/"
       | split_page _ | original_for_merge _ => "/tmp/work/splitter/"
       | page_images _ => "/tmp/work/pdfImages/"
       | full_html _ | converted_pdf _ => "/tmp/work/tableContainerHTML/"
       | final_merged => "/tmp/work/"
       end +:+ path_name p;
     pdf_read_error := fun _ => Exn PdfReadError "EOF marker not found";
     classify_endpoint := fun _ _ => Text "{}";
     synthesis_endpoint := fun _ => Text "";
     long_sleep_error := fun _ => None;
     mkdir_error := None;
     split_write_error := fun _ => None;
     convert_from_path := fun _ => inr {| exact_exists := true; glob_matches := [] |};
     partial_images := fun _ => [];
     image_to_string := fun _ => inr "";
     image_open_error := fun _ => None;
     html_write_error := fun _ => None;
     unlink_error := fun _ => None;
     pdfkit_from_file := fun _ _ => PdfkitDone (Some (PdfFile ["rendered"]));
     original_write_error := fun _ => None;
     final_write_error := None |}.

(** [E] with another conversion tool. *)
Definition with_pdfkit (k : nat → file → pdfkit_result) (E : env) : env :=
  {| GEMINI_API_KEY := GEMINI_API_KEY E;
     detection_prompt_head := detection_prompt_head E;
     detection_prompt_tail := detection_prompt_tail E;
     html_prompt := html_prompt E;
     json_loads := json_loads E;
     repr := repr E;
     path_str := path_str E;
     pdf_read_error := pdf_read_error E;
     classify_endpoint := classify_endpoint E;
     synthesis_endpoint := synthesis_endpoint E;
     long_sleep_error := long_sleep_error E;
     mkdir_error := mkdir_error E;
     split_write_error := split_write_error E;
     convert_from_path := convert_from_path E;
     partial_images := partial_images E;
     image_to_string := image_to_string E;
     image_open_error := image_open_error E;
     html_write_error := html_write_error E;
     unlink_error := unlink_error E;
     pdfkit_from_file := k;
     original_write_error := original_write_error E;
     final_write_error := final_write_error E |}.

(** [E] where the originals of the page indices told cannot be extracted. *)
Definition with_original_write_error (w : nat → option write_failure) (E : env)
  : env :=
  {| GEMINI_API_KEY := GEMINI_API_KEY E;
     detection_prompt_head := detection_prompt_head E;
     detection_prompt_tail := detection_prompt_tail E;
     html_prompt := html_prompt E;
     json_loads := json_loads E;
     repr := repr E;
     path_str := path_str E;
     pdf_read_error := pdf_read_error E;
     classify_endpoint := classify_endpoint E;
     synthesis_endpoint := synthesis_endpoint E;
     long_sleep_error := long_sleep_error E;
     mkdir_error := mkdir_error E;
     split_write_error := split_write_error E;
     convert_from_path := convert_from_path E;
     partial_images := partial_images E;
     image_to_string := image_to_string E;
     image_open_error := image_open_error E;
     html_write_error := html_write_error E;
     unlink_error := unlink_error E;
     pdfkit_from_file := pdfkit_from_file E;
     original_write_error := w;
     final_write_error := final_write_error E |}.

Definition tool_failure : exn := Exn (OtherError "OSError") "wkhtmltopdf exited".

(** A write that fails before anything is opened. *)
Definition cannot_open : write_failure :=
  {| write_exn := Exn (OtherError "PermissionError") "[Errno 13] Permission denied";
     left_behind := None |}.

(** A source document of [n] pages named by their numbers. *)
Definition source_document (n : nat) : file :=
  PdfFile (map (fun k => "original " +:+ pretty (k + 1)) (seq 0 n)).

(** A transient transport error, and the feedback of a blocked prompt. *)
Definition deadline_exceeded : exn :=
  Exn (OtherError "DeadlineExceeded") "504 Deadline Exceeded".

Definition blocked_for_safety : option prompt_feedback :=
  Some {| block_reason := "SAFETY"; safety_ratings := "[HARM_CATEGORY_DANGEROUS]" |}.


(** The renderer fails on page 3 and works on the others. *)
Definition renderer_fails_on_3 : env :=
  with_pdfkit
    (fun page_num _ =>
       if page_num =? 3 then PdfkitRaises tool_failure
       else PdfkitDone (Some (PdfFile ["rendered"])))
    quiet_env.



(** No original page can be extracted. *)
Definition no_original : env :=
  with_original_write_error (fun _ => Some cannot_open) quiet_env.

(** A work area holding the source document of [n] pages and nothing else,
    and the same with a markup artifact for page [k]. *)
Definition fresh_work_area (n : nat) : gmap path file :=
  {[input_pdf := source_document n]}.

Definition work_area_with_markup (n k : nat) : gmap path file :=
  <[full_html k := HtmlFile "<html>...</html>"]> (fresh_work_area n).

(** What the task of page index [page_index] returns; it does not depend on
    the work area the task finds. *)
Definition page_outcome (E : env) (reader : list page) (page_index : nat)
  : page_result :=
  (process_single_page E reader page_index ∅).1.1.


Definition with_json_loads (j : string → exn + pyval) (E : env) : env :=
  {| GEMINI_API_KEY := GEMINI_API_KEY E;
     detection_prompt_head := detection_prompt_head E;
     detection_prompt_tail := detection_prompt_tail E;
     html_prompt := html_prompt E;
     json_loads := j;
     repr := repr E;
     path_str := path_str E;
     pdf_read_error := pdf_read_error E;
     classify_endpoint := classify_endpoint E;
     synthesis_endpoint := synthesis_endpoint E;
     long_sleep_error := long_sleep_error E;
     mkdir_error := mkdir_error E;
     split_write_error := split_write_error E;
     convert_from_path := convert_from_path E;
     partial_images := partial_images E;
     image_to_string := image_to_string E;
     image_open_error := image_open_error E;
     html_write_error := html_write_error E;
     unlink_error := unlink_error E;
     pdfkit_from_file := pdfkit_from_file E;
     original_write_error := original_write_error E;
     final_write_error := final_write_error E |}.


Definition with_classify_endpoint (c : nat → nat → gen_result) (E : env) : env :=
  {| GEMINI_API_KEY := GEMINI_API_KEY E;
     detection_prompt_head := detection_prompt_head E;
     detection_prompt_tail := detection_prompt_tail E;
     html_prompt := html_prompt E;
     json_loads := json_loads E;
     repr := repr E;
     path_str := path_str E;
     pdf_read_error := pdf_read_error E;
     classify_endpoint := c;
     synthesis_endpoint := synthesis_endpoint E;
     long_sleep_error := long_sleep_error E;
     mkdir_error := mkdir_error E;
     split_write_error := split_write_error E;
     convert_from_path := convert_from_path E;
     partial_images := partial_images E;
     image_to_string := image_to_string E;
     image_open_error := image_open_error E;
     html_write_error := html_write_error E;
     unlink_error := unlink_error E;
     pdfkit_from_file := pdfkit_from_file E;
     original_write_error := original_write_error E;
     final_write_error := final_write_error E |}.

(** An endpoint that fails transiently [k] times and then gives [r]. *)
Definition flaky (k : nat) (r : gen_result) (attempt : nat) : gen_result :=
  if attempt <? k then Raises deadline_exceeded else r.

(** A response that carries an [error] key besides a detected table. *)
Definition response_with_error (err : pyval) : gmap string pyval :=
  <["error" := err]> {["tableDetected" := PyBool true]}.

(** A decoder that knows one more body, [null error]. *)
Definition decodes_null_error : env :=
  with_json_loads
    (fun t => if String.eqb t "null error"
              then inr (PyDict (response_with_error PyNone))
              else json_loads quiet_env t)
    quiet_env.

(** A decoder that exhausts the stack on one body. *)
Definition deep_nesting : exn :=
  Exn (OtherError "RecursionError")
    "maximum recursion depth exceeded while decoding a JSON array".

Definition decoder_overflows : env :=
  with_json_loads
    (fun t => if String.eqb t "[[[[" then inl deep_nesting
              else json_loads quiet_env t)
    quiet_env.



(** A task that makes at most [n] calls to the generative endpoints. *)
Definition calls_at_most {A : Type} (n : nat) (m : task A) : Prop :=
  ∀ fs, attempts (m fs).2 ≤ n.

(** A task that leaves the file [p] as it finds it. *)
Definition preserves {A : Type} (p : path) (m : task A) : Prop :=
  ∀ fs, (m fs).1.2 !! p = fs !! p.

(** The task failed at saving the markup of page [page_num], with the
    message [msg], after the file was opened: the file holds what the
    failed write left. *)
Definition failed_save (E : env) (page_num : nat) (msg : string)
  (fs : gmap path file) : Prop :=
  ∃ w f,
    html_write_error E page_num = Some w
    ∧ left_behind w = Some f
    ∧ fs !! full_html page_num = Some f
    ∧ msg = "HTML Save Failed: " +:+ exn_msg (write_exn w).

(** A task that returns [(True, None)], or else fails, with a message or an
    exception, and then leaves the markup of page [page_num] as it finds
    it unless it failed at saving it. *)
Definition fails_cleanly (E : env) (page_num : nat) (m : task page_result)
  : Prop :=
  ∀ fs,
    match (m fs).1.1 with
    | inr (true, None) => True
    | inr (false, Some msg) =>
        (m fs).1.2 !! full_html page_num = fs !! full_html page_num
        ∨ failed_save E page_num msg (m fs).1.2
    | inl _ => (m fs).1.2 !! full_html page_num = fs !! full_html page_num
    | inr _ => False
    end.


(** The two status variables of the merge agree: no message while it is
    successful, a message once it is not. *)
Definition status_agrees (st : merge_state) : Prop :=
  merge_is_successful st = true ↔ overall_merge_error_message st = None.

(** * Properties *)

(** ** Python strings *)
Module PyStrFacts.
Import PyStr.

Lemma length_app (s t : string) :
  String.length (s +:+ t) = String.length s + String.length t.
Proof. induction s as [|c s IH]; simpl; [done | by rewrite IH]. Qed.

Lemma startswith_app (p s : string) : startswith (p +:+ s) p = true.
Proof.
  induction p as [|c p IH]; simpl; [done |].
  by rewrite Ascii.eqb_refl.
Qed.

Lemma drop_app_length (p s : string) : drop (String.length p) (p +:+ s) = s.
Proof. induction p as [|c p IH]; simpl; [by destruct s | done]. Qed.

Lemma take_app_length (s t : string) : take (String.length s) (s +:+ t) = s.
Proof. induction s as [|c s IH]; simpl; [done | by rewrite IH]. Qed.

Lemma replace_first_unfold (s old new : string) :
  replace_first s old new =
  if startswith s old then new +:+ drop (String.length old) s
  else match s with
       | EmptyString => EmptyString
       | String c s' => String c (replace_first s' old new)
       end.
Proof. by destruct s. Qed.

Lemma replace_first_prefix (p s new : string) :
  replace_first (p +:+ s) p new = new +:+ s.
Proof.
  by rewrite replace_first_unfold, startswith_app, drop_app_length.
Qed.

Lemma endswith_app (s suf : string) : endswith (s +:+ suf) suf = true.
Proof.
  unfold endswith. rewrite length_app.
  replace (String.length s + String.length suf - String.length suf)
    with (String.length s) by lia.
  rewrite drop_app_length, String.eqb_refl, andb_true_r.
  apply Nat.leb_le. lia.
Qed.

Lemma slice_to_neg_app (s suf : string) :
  slice_to_neg (String.length suf) (s +:+ suf) = s.
Proof.
  unfold slice_to_neg. rewrite length_app.
  replace (String.length s + String.length suf - String.length suf)
    with (String.length s) by lia.
  apply take_app_length.
Qed.

Lemma lstrip_whitespace_only (s : string) :
  whitespace_only s = true → lstrip s = "".
Proof.
  induction s as [|c s IH]; simpl; [done |].
  intros [Hc Hs]%andb_true_iff. rewrite Hc. auto.
Qed.

Lemma strip_whitespace_only (s : string) :
  whitespace_only s = true → strip s = "".
Proof. intros H. unfold strip. by rewrite lstrip_whitespace_only. Qed.

Lemma rstrip_empty (s : string) : rstrip s = "" → whitespace_only s = true.
Proof.
  induction s as [|c s IH]; simpl; [done |].
  destruct (rstrip s) eqn:Hr; [| done].
  destruct (isspace c); [| done]. intros _. by rewrite IH.
Qed.

Lemma whitespace_only_lstrip (s : string) :
  whitespace_only (lstrip s) = true → whitespace_only s = true.
Proof.
  induction s as [|c s IH]; simpl; [done |].
  destruct (isspace c) eqn:Hc; simpl; [auto |].
  by rewrite Hc.
Qed.

Lemma strip_empty_iff (s : string) : strip s = "" ↔ whitespace_only s = true.
Proof.
  split; [| apply strip_whitespace_only].
  intros H. by apply whitespace_only_lstrip, rstrip_empty.
Qed.

End PyStrFacts.

(** ** Markup post-processing *)

(** C9: [clean_ai_html_response] strips the code-fence wrapper.  A response
    made of the opening fence with its [html] tag, a body and the closing
    fence is cleaned to the stripped body; the fenced document of the
    specification is cleaned to exactly ["<html>...</html>"], and the result
    holds no fence. *)
Theorem clean_ai_html_response_strips_fences :
  (∀ body : string,
     clean_ai_html_response (fence_html +:+ body +:+ fence) = PyStr.strip body)
  ∧ clean_ai_html_response fenced_example = "<html>...</html>"
  ∧ PyStr.contains (clean_ai_html_response fenced_example) fence = false.
Proof.
  split; [| split; reflexivity].
  intros body. unfold clean_ai_html_response.
  rewrite PyStrFacts.startswith_app, PyStrFacts.replace_first_prefix.
  change ("" +:+ (body +:+ fence)) with (body +:+ fence).
  rewrite PyStrFacts.endswith_app.
  change 3 with (String.length fence).
  by rewrite PyStrFacts.slice_to_neg_app.
Qed.

(** ** Validation *)



Lemma validate_log (d : gmap string pyval) (b : bool) (c : pyval) :
  d !! "tableDetected" = Some (PyBool b) →
  d !! "confidenceScore" = Some c →
  isinstance_int_float c = true →
  validate_table_detection_response (PyDict d) =
  (true, if in_unit_interval c then [] else [Log WARNING warn_out_of_range]).
Proof.
  intros Htd Hcs Hn. unfold validate_table_detection_response. simpl.
  rewrite Htd, Hcs. simpl. rewrite Hn. simpl.
  by destruct (in_unit_interval c).
Qed.


(** C10: the response [{tableDetected: False, confidenceScore: True}]
    passes validation, without even a warning: a boolean passes the
    [isinstance(_, (int, float))] test and counts as in range. *)
Theorem validation_accepts_boolean_confidence :
  validate_table_detection_response
    (PyDict (detection_response (PyBool false) (PyBool true))) = (true, [])
  ∧ isinstance_int_float (PyBool true) = true
  ∧ in_unit_interval (PyBool true) = true.
Proof. by rewrite (validate_log _ false (PyBool true)). Qed.

(** ** The retrying call *)

Lemma attempts_app (tr1 tr2 : list event) :
  attempts (tr1 ++ tr2) = attempts tr1 + attempts tr2.
Proof. unfold attempts. by rewrite filter_app, length_app. Qed.

Lemma sleeps_app (tr1 tr2 : list event) :
  sleeps (tr1 ++ tr2) = sleeps tr1 ++ sleeps tr2.
Proof. unfold sleeps. apply omap_app. Qed.

Lemma attempts_cons (e : event) (tr : list event) :
  attempts (e :: tr) = (if is_call e then 1 else 0) + attempts tr.
Proof.
  unfold attempts. rewrite filter_cons.
  destruct (is_call e); by case_decide.
Qed.

Lemma sleeps_cons (e : event) (tr : list event) :
  sleeps (e :: tr)
  = match e with Sleep d => d :: sleeps tr | _ => sleeps tr end.
Proof. by destruct e. Qed.

#[local] Arguments attempts : simpl never.
#[local] Arguments sleeps : simpl never.

Local Ltac count_events := rewrite ?attempts_cons, ?sleeps_cons; simpl.

#[local] Arguments time_sleep : simpl never.

(** The notions used in the statements agree with what the code computes. *)
Lemma time_sleep_sleepable (E : env) (secs : Z) :
  sleepable secs → time_sleep E secs = None.
Proof.
  intros [H0 H1]. unfold time_sleep.
  destruct (Z.ltb_spec secs 0); [lia |].
  destruct (Z.leb_spec secs 4294967); [done | lia].
Qed.

Lemma is_parse_error_transient (e : exn) :
  not_a_parse_error e = true → is_parse_error e = false.
Proof. unfold not_a_parse_error, is_parse_error. by destruct (exn_cls e). Qed.

Lemma is_parse_error_parse (e : exn) :
  not_a_parse_error e = false → is_parse_error e = true.
Proof. unfold not_a_parse_error, is_parse_error. by destruct (exn_cls e). Qed.

Lemma empty_or_blocked_msg_eq (fb : option prompt_feedback) :
  empty_or_blocked_msg fb = blocked_message fb.
Proof. by destruct fb. Qed.

Lemma not_a_dict_msg_eq (v : pyval) :
  not_a_dict_msg v
  = "Parsed response is not a dictionary (type: " +:+ printed_type v +:+ ")".
Proof. by destruct v. Qed.

Section attempt_loop_facts.
Context (E : env) (generate_content : nat → gen_result) (prompt : string).
Context (max_retries : nat) (delay : Z).

Local Abbreviation loop := (attempt_loop E generate_content prompt max_retries delay).

(** A transient failure before the last attempt, followed by a sleep that
    returns: the loop goes on (with the text it has logged). *)
Lemma retry_step (remaining attempt : nat) (text : string) :
  retryable E (generate_content attempt) = true →
  attempt < max_retries - 1 →
  sleepable (delay * 2 ^ Z.of_nat attempt) →
  ∃ text',
    (loop (S remaining) attempt text).1 = (loop remaining (S attempt) text').1
    ∧ attempts (loop (S remaining) attempt text).2
      = S (attempts (loop remaining (S attempt) text').2)
    ∧ sleeps (loop (S remaining) attempt text).2
      = (delay * 2 ^ Z.of_nat attempt)%Z
        :: sleeps (loop remaining (S attempt) text').2.
Proof.
  intros Hr Hlt Hsleep. apply Nat.ltb_lt in Hlt.
  apply (time_sleep_sleepable E) in Hsleep. simpl.
  destruct (generate_content attempt) as [e|[f|]|t]; simpl in Hr; [| | done |].
  - exists text. rewrite (is_parse_error_transient e Hr), Hlt, Hsleep.
    destruct (loop remaining (S attempt) text) as [r tr]. simpl.
    by count_events.
  - exists text. unfold finish_reason_of. simpl. rewrite Hr, Hlt, Hsleep. simpl.
    destruct (loop remaining (S attempt) text) as [r tr]. simpl.
    by count_events.
  - exists t. destruct (json_loads E t) as [e|v]; [| done].
    rewrite (is_parse_error_transient e Hr), Hlt, Hsleep.
    destruct (loop remaining (S attempt) t) as [r tr]. simpl.
    by count_events.
Qed.

(** A transient failure at the last attempt: its error is returned. *)
Lemma retry_last (remaining attempt : nat) (text : string) :
  retryable E (generate_content attempt) = true →
  ¬ attempt < max_retries - 1 →
  (loop (S remaining) attempt text).1
  = inr {["error" := PyStr ("Gemini API call failed after " +:+ pretty max_retries
                             +:+ " attempts: "
                             +:+ exn_msg (error_of E (generate_content attempt)))]}
  ∧ attempts (loop (S remaining) attempt text).2 = 1
  ∧ sleeps (loop (S remaining) attempt text).2 = [].
Proof.
  intros Hr Hlt. apply Nat.ltb_nlt in Hlt. simpl.
  destruct (generate_content attempt) as [e|[f|]|t]; simpl in Hr; [| | done |].
  - rewrite (is_parse_error_transient e Hr), Hlt. simpl. by count_events.
  - unfold finish_reason_of. simpl. rewrite Hr, Hlt. simpl. by count_events.
  - simpl. destruct (json_loads E t) as [e|v]; [| done].
    rewrite (is_parse_error_transient e Hr), Hlt. simpl. by count_events.
Qed.

(** When every attempt fails with a transient error the loop makes all its
    attempts, sleeps [delay * 2 ^ attempt] after each but the last, and
    returns the error of the last. *)
Lemma retries_exhausted (remaining attempt : nat) (text : string) :
  attempt + remaining = max_retries →
  0 < remaining →
  (∀ k, attempt ≤ k < max_retries → retryable E (generate_content k) = true) →
  (∀ k, attempt ≤ k < max_retries - 1 → sleepable (delay * 2 ^ Z.of_nat k)) →
  (loop remaining attempt text).1
  = inr {["error" :=
            PyStr ("Gemini API call failed after " +:+ pretty max_retries
                   +:+ " attempts: "
                   +:+ exn_msg (error_of E (generate_content (max_retries - 1))))]}
  ∧ attempts (loop remaining attempt text).2 = remaining
  ∧ sleeps (loop remaining attempt text).2
    = map (fun k => (delay * 2 ^ Z.of_nat k)%Z) (seq attempt (remaining - 1)).
Proof.
  revert attempt text.
  induction remaining as [|remaining IH]; intros attempt text Hsum Hpos Hall Hsl.
  { lia. }
  destruct (decide (attempt < max_retries - 1)) as [Hlt|Hge].
  - destruct (retry_step remaining attempt text) as (text' & H1 & H2 & H3);
      [apply Hall; lia | done | apply Hsl; lia |].
    destruct (IH (S attempt) text') as (I1 & I2 & I3);
      [lia | lia | intros; apply Hall; lia | intros; apply Hsl; lia |].
    rewrite H1, H2, H3, I1, I2, I3.
    split; [done |]. split; [done |].
    destruct remaining as [|remaining']; [lia |].
    simpl. by rewrite Nat.sub_0_r.
  - destruct (retry_last remaining attempt text) as (H1 & H2 & H3);
      [apply Hall; lia | done |].
    assert (remaining = 0) as -> by lia.
    assert (attempt = max_retries - 1) as Ha by lia.
    rewrite H1, H2, H3. simpl. by rewrite Ha.
Qed.

End attempt_loop_facts.

(** C4: when every attempt of a classifier call fails with a transient
    error, exactly 3 calls are made to the endpoint, the call sleeps 5
    seconds after the first failure and 10 after the second, and what it
    returns is the dictionary whose [error] key holds the message
    [Gemini API call failed after 3 attempts: ] followed by the error of
    the third attempt. *)
Theorem transient_failures_three_attempts (E : env)
  (generate_content : nat → gen_result) (prompt : string) :
  api_key_missing E = false →
  (∀ k, k < 3 → retryable E (generate_content k) = true) →
  attempts (call_gemini_for_json E generate_content prompt 3 5).2 = 3
  ∧ sleeps (call_gemini_for_json E generate_content prompt 3 5).2 = [5; 10]%Z
  ∧ (call_gemini_for_json E generate_content prompt 3 5).1
    = inr {["error" :=
              PyStr ("Gemini API call failed after 3 attempts: "
                     +:+ exn_msg (error_of E (generate_content 2)))]}
  ∧ (∀ e, generate_content 2 = Raises e →
          ∃ d, (call_gemini_for_json E generate_content prompt 3 5).1 = inr d
               ∧ d !! "error"
                 = Some (PyStr ("Gemini API call failed after 3 attempts: "
                                +:+ exn_msg e))).
Proof.
  intros Hkey Hall. unfold call_gemini_for_json. rewrite Hkey.
  destruct (retries_exhausted E generate_content prompt 3 5 3 0 "")
    as (H1 & H2 & H3); [done | lia | intros; apply Hall; lia | |].
  { intros k Hk. unfold sleepable.
    assert (k = 0 ∨ k = 1) as [-> | ->] by lia; simpl; lia. }
  rewrite H1, H2, H3. split; [done |]. split; [done |]. split; [done |].
  intros e He. simpl Nat.sub. rewrite He. simpl.
  eexists. split; [reflexivity |]. apply lookup_singleton_eq.
Qed.

(** C5: an empty or blocked answer whose block reason is not the normal
    stop reason ends the call at once: after exactly one call to the
    endpoint and no sleep it returns the dictionary whose only key,
    [error], holds the message that names the block reason and the safety
    ratings. *)
Theorem blocked_response_not_retried (E : env)
  (generate_content : nat → gen_result) (prompt : string)
  (max_retries : nat) (delay : Z) (fb : option prompt_feedback) :
  api_key_missing E = false →
  0 < max_retries →
  generate_content 0 = Empty fb →
  (∀ f, fb = Some f → block_reason f ≠ "STOP") →
  (call_gemini_for_json E generate_content prompt max_retries delay).1
  = inr {["error" := PyStr (blocked_message fb)]}
  ∧ (∃ d, (call_gemini_for_json E generate_content prompt max_retries delay).1 = inr d
          ∧ d !! "error" = Some (PyStr (blocked_message fb)))
  ∧ attempts (call_gemini_for_json E generate_content prompt max_retries delay).2 = 1
  ∧ sleeps (call_gemini_for_json E generate_content prompt max_retries delay).2 = [].
Proof.
  intros Hkey Hpos Hgen Hstop. unfold call_gemini_for_json. rewrite Hkey.
  destruct max_retries as [|n]; [lia |]. simpl. rewrite Hgen.
  assert (String.eqb (finish_reason_of fb) "STOP" = false) as ->.
  { apply String.eqb_neq. destruct fb as [f|]; [by apply Hstop | done]. }
  simpl. rewrite empty_or_blocked_msg_eq.
  split; [done |]. split; [| by count_events].
  eexists. split; [reflexivity |]. apply lookup_singleton_eq.
Qed.


(** ** Table detection on empty text *)

(** C2: on a text that is empty or holds only whitespace, [detect_table]
    returns the default result [{tableDetected: False, confidenceScore: 0.0}]
    with the empty-input marker, logs the [detectTable_EmptyInput] component
    and makes no call to the endpoint; the page task then takes the page for
    successful, with no error message, so that it is not counted among the
    failed pages. *)
Theorem empty_text_short_circuits (E : env)
  (generate_content : nat → gen_result) (page_text : string) :
  PyStr.whitespace_only page_text = true →
  detect_table E generate_content page_text
  = ({| det_response := detection_response (PyBool false) (PyFloat 0%float);
        det_error := PyStr empty_input_error |},
     [Log WARNING "[WARN] detect_table called with empty page_text.";
      LogComponent "detectTable_EmptyInput"])
  ∧ attempts (detect_table E generate_content page_text).2 = 0
  ∧ (∀ (page_num : nat) (page_image_path : string) (fs : gmap path file),
       (after_detection E page_num page_image_path page_text
          (detect_table E generate_content page_text).1 fs).1.1
       = inr (true, None))
  ∧ (∀ page_index : nat,
       harvest [(page_index, (true, None))] = (0, None)).
Proof.
  intros Hws. apply PyStrFacts.strip_whitespace_only in Hws.
  assert (detect_table E generate_content page_text
          = ({| det_response := detection_response (PyBool false) (PyFloat 0%float);
                det_error := PyStr empty_input_error |},
             [Log WARNING "[WARN] detect_table called with empty page_text.";
              LogComponent "detectTable_EmptyInput"])) as ->.
  { unfold detect_table. rewrite Hws. simpl. by rewrite orb_true_r. }
  repeat split.
Qed.

Lemma empty_text_short_circuits_witness :
  detect_table quiet_env (fun _ => Text "{}") (" " +:+ newline)
  = ({| det_response := detection_response (PyBool false) (PyFloat 0%float);
        det_error := PyStr empty_input_error |},
     [Log WARNING "[WARN] detect_table called with empty page_text.";
      LogComponent "detectTable_EmptyInput"])
  ∧ attempts (detect_table quiet_env (fun _ => Text "{}") (" " +:+ newline)).2 = 0
  ∧ (∀ (page_num : nat) (page_image_path : string) (fs : gmap path file),
       (after_detection quiet_env page_num page_image_path (" " +:+ newline)
          (detect_table quiet_env (fun _ => Text "{}") (" " +:+ newline)).1 fs).1.1
       = inr (true, None))
  ∧ (∀ page_index : nat,
       harvest [(page_index, (true, None))] = (0, None)).
Proof. apply empty_text_short_circuits. reflexivity. Defined.

(** The removal of the split page calls no endpoint. *)
Lemma unlink_split_page_calls (E : env) (page_num : nat) (fs : gmap path file) :
  attempts (unlink_split_page E page_num fs).2 = 0.
Proof. unfold unlink_split_page. by repeat case_match. Qed.

(** The whole task of a page whose OCR text is blank, when the tools before
    the classifier work: a success, without a call to the endpoint. *)
Lemma blank_page_task_succeeds (E : env) (reader : list page) (page_index : nat)
  (pg : page) (out : raster_output) (text : string) (fs : gmap path file) :
  reader !! page_index = Some pg →
  split_write_error E page_index = None →
  convert_from_path E (page_index + 1) = inr out →
  exact_exists out = true →
  image_to_string E (image_name (page_index + 1)) = inr text →
  PyStr.whitespace_only text = true →
  (process_single_page E reader page_index fs).1.1 = (true, None)
  ∧ attempts (process_single_page E reader page_index fs).2 = 0.
Proof.
  intros Hpg Hw Hconv Hex Hocr Hws.
  apply PyStrFacts.strip_whitespace_only in Hws.
  unfold process_single_page, page_body, save_pdf_page, rasterize, ocr, try_catch,
    leave_images, found_images, write_file, emit, mbind, task_bind, mret, task_ret.
  rewrite Hpg, Hw, Hconv, Hex. simpl. rewrite Hocr, Hws. simpl.
  match goal with
  | |- context [unlink_split_page E ?n ?fs0] =>
      pose proof (unlink_split_page_calls E n fs0) as Hu;
      destruct (unlink_split_page E n fs0) as [fs' tru]
  end.
  simpl in *. split; [done |].
  by rewrite !attempts_cons, attempts_app, Hu.
Qed.


(** ** Witnesses for the retrying call *)

Lemma transient_failures_three_attempts_witness :
  attempts (call_gemini_for_json quiet_env (fun _ => Raises deadline_exceeded)
              "prompt" 3 5).2 = 3
  ∧ sleeps (call_gemini_for_json quiet_env (fun _ => Raises deadline_exceeded)
              "prompt" 3 5).2 = [5; 10]%Z
  ∧ (call_gemini_for_json quiet_env (fun _ => Raises deadline_exceeded)
       "prompt" 3 5).1
    = inr {["error" :=
              PyStr "Gemini API call failed after 3 attempts: 504 Deadline Exceeded"]}
  ∧ (∀ e, Raises deadline_exceeded = Raises e →
          ∃ d, (call_gemini_for_json quiet_env (fun _ => Raises deadline_exceeded)
                  "prompt" 3 5).1 = inr d
               ∧ d !! "error"
                 = Some (PyStr ("Gemini API call failed after 3 attempts: "
                                +:+ exn_msg e))).
Proof.
  apply (transient_failures_three_attempts quiet_env
           (fun _ => Raises deadline_exceeded) "prompt");
    [reflexivity | intros k _; reflexivity].
Defined.

Lemma blocked_response_not_retried_witness :
  (call_gemini_for_json quiet_env (fun _ => Empty blocked_for_safety) "prompt" 3 5).1
  = inr {["error" :=
            PyStr ("Gemini response empty or blocked. Finish Reason: SAFETY, "
                   +:+ "Safety: [HARM_CATEGORY_DANGEROUS]")]}
  ∧ (∃ d, (call_gemini_for_json quiet_env (fun _ => Empty blocked_for_safety)
             "prompt" 3 5).1 = inr d
          ∧ d !! "error"
            = Some (PyStr ("Gemini response empty or blocked. Finish Reason: SAFETY, "
                           +:+ "Safety: [HARM_CATEGORY_DANGEROUS]")))
  ∧ attempts (call_gemini_for_json quiet_env (fun _ => Empty blocked_for_safety)
                "prompt" 3 5).2 = 1
  ∧ sleeps (call_gemini_for_json quiet_env (fun _ => Empty blocked_for_safety)
              "prompt" 3 5).2 = [].
Proof.
  apply (blocked_response_not_retried quiet_env
           (fun _ => Empty blocked_for_safety) "prompt" 3 5 blocked_for_safety);
    [reflexivity | lia | reflexivity | by intros f [= <-]].
Defined.


#[local] Arguments validate_table_detection_response : simpl never.

(** ** Decisive answers after transient failures *)

Section decisive_attempts.
Context (E : env) (generate_content : nat → gen_result) (prompt : string).
Context (max_retries : nat) (delay : Z).

Local Abbreviation loop := (attempt_loop E generate_content prompt max_retries delay).

(** [k] transient failures, none at the last attempt and each followed by
    a sleep that returns, cost [k] calls and [k] sleeps and lead to
    attempt [k]. *)
Lemma retry_prefix (k : nat) :
  ∀ (remaining attempt : nat) (text : string),
    (∀ j, attempt ≤ j < attempt + k → retryable E (generate_content j) = true) →
    (∀ j, attempt ≤ j < attempt + k → sleepable (delay * 2 ^ Z.of_nat j)) →
    attempt + k < max_retries →
    ∃ text',
      (loop (k + remaining) attempt text).1 = (loop remaining (attempt + k) text').1
      ∧ attempts (loop (k + remaining) attempt text).2
        = k + attempts (loop remaining (attempt + k) text').2
      ∧ sleeps (loop (k + remaining) attempt text).2
        = map (fun j => (delay * 2 ^ Z.of_nat j)%Z) (seq attempt k)
          ++ sleeps (loop remaining (attempt + k) text').2.
Proof.
  induction k as [|k IH]; intros remaining attempt text Hall Hsl Hlt.
  { exists text. by rewrite Nat.add_0_r. }
  destruct (retry_step E generate_content prompt max_retries delay
              (k + remaining) attempt text) as (text1 & H1 & H2 & H3);
    [apply Hall; lia | lia | apply Hsl; lia |].
  destruct (IH remaining (S attempt) text1) as (text' & I1 & I2 & I3);
    [intros; apply Hall; lia | intros; apply Hsl; lia | lia |].
  exists text'.
  replace (attempt + S k) with (S attempt + k) by lia.
  change (S k + remaining) with (S (k + remaining)).
  rewrite H1, H2, H3, I1, I2, I3. done.
Qed.

(** The call, once [k] transient failures have led to attempt [k]. *)
Lemma call_after_retries (k : nat) :
  api_key_missing E = false →
  k < max_retries →
  (∀ j, j < k → retryable E (generate_content j) = true) →
  (∀ j, j < k → sleepable (delay * 2 ^ Z.of_nat j)) →
  ∃ text',
    (call_gemini_for_json E generate_content prompt max_retries delay).1
    = (loop (S (max_retries - k - 1)) k text').1
    ∧ attempts (call_gemini_for_json E generate_content prompt max_retries delay).2
      = k + attempts (loop (S (max_retries - k - 1)) k text').2
    ∧ sleeps (call_gemini_for_json E generate_content prompt max_retries delay).2
      = backoff delay k ++ sleeps (loop (S (max_retries - k - 1)) k text').2.
Proof.
  intros Hkey Hk Hall Hsl. unfold call_gemini_for_json. rewrite Hkey.
  destruct (retry_prefix k (S (max_retries - k - 1)) 0 "") as (text' & H1 & H2 & H3);
    [intros; apply Hall; lia | intros; apply Hsl; lia | lia |].
  set (m := max_retries - k - 1) in *.
  assert (k + S m = max_retries) as Hm by lia.
  rewrite Hm in H1, H2, H3.
  exists text'. by rewrite H1, H2, H3.
Qed.

(** X3: A blocked answer at attempt [k], after [k] transient failures each
    followed by its sleep, is the last call made: the call returns the
    dictionary whose only key, [error], holds the message that names the
    block reason. *)
Lemma blocked_response_ends_call (k : nat) (fb : option prompt_feedback) :
  api_key_missing E = false →
  k < max_retries →
  (∀ j, j < k → retryable E (generate_content j) = true) →
  (∀ j, j < k → sleepable (delay * 2 ^ Z.of_nat j)) →
  generate_content k = Empty fb →
  (∀ f, fb = Some f → block_reason f ≠ "STOP") →
  (call_gemini_for_json E generate_content prompt max_retries delay).1
  = inr {["error" := PyStr (blocked_message fb)]}
  ∧ (∃ d, (call_gemini_for_json E generate_content prompt max_retries delay).1 = inr d
          ∧ d !! "error" = Some (PyStr (blocked_message fb)))
  ∧ attempts (call_gemini_for_json E generate_content prompt max_retries delay).2
    = k + 1
  ∧ sleeps (call_gemini_for_json E generate_content prompt max_retries delay).2
    = backoff delay k.
Proof.
  intros Hkey Hk Hall Hsl Hgen Hstop.
  destruct (call_after_retries k) as (text' & H1 & H2 & H3); [done.. |].
  rewrite H1, H2, H3. simpl. rewrite Hgen.
  assert (String.eqb (finish_reason_of fb) "STOP" = false) as ->.
  { apply String.eqb_neq. destruct fb as [f|]; [by apply Hstop | done]. }
  simpl. rewrite empty_or_blocked_msg_eq.
  split; [done |]. split.
  { eexists. split; [reflexivity |]. apply lookup_singleton_eq. }
  rewrite !attempts_cons, !sleeps_cons, app_nil_r. done.
Qed.

(** X4: An answer at attempt [k] that does not parse as a JSON dictionary,
    after [k] transient failures each followed by its sleep, is the last
    call made too: the call returns the dictionary whose [error] key holds
    the parse error and whose [raw_text] key holds the text of that
    answer. *)
Lemma parse_failure_ends_call (k : nat) (t msg : string) :
  api_key_missing E = false →
  k < max_retries →
  (∀ j, j < k → retryable E (generate_content j) = true) →
  (∀ j, j < k → sleepable (delay * 2 ^ Z.of_nat j)) →
  generate_content k = Text t →
  parse_failure E t = Some msg →
  (call_gemini_for_json E generate_content prompt max_retries delay).1
  = inr (<["raw_text" := PyStr t]>
           {["error" := PyStr ("Failed to parse Gemini response as JSON: " +:+ msg)]})
  ∧ (∃ d, (call_gemini_for_json E generate_content prompt max_retries delay).1 = inr d
          ∧ d !! "error"
            = Some (PyStr ("Failed to parse Gemini response as JSON: " +:+ msg))
          ∧ d !! "raw_text" = Some (PyStr t))
  ∧ attempts (call_gemini_for_json E generate_content prompt max_retries delay).2
    = k + 1
  ∧ sleeps (call_gemini_for_json E generate_content prompt max_retries delay).2
    = backoff delay k.
Proof.
  intros Hkey Hk Hall Hsl Hgen Hparse.
  destruct (call_after_retries k) as (text' & H1 & H2 & H3); [done.. |].
  rewrite H1, H2, H3. simpl. rewrite Hgen.
  unfold parse_failure in Hparse. unfold parse_error_return, error_dict.
  assert (∀ d : gmap string pyval,
            d = <["raw_text" := PyStr t]>
                  {["error" := PyStr ("Failed to parse Gemini response as JSON: "
                                      +:+ msg)]} →
            ∃ d', inr (A := exn) d = inr d'
                  ∧ d' !! "error"
                    = Some (PyStr ("Failed to parse Gemini response as JSON: "
                                   +:+ msg))
                  ∧ d' !! "raw_text" = Some (PyStr t)) as Hlook.
  { intros d ->. eexists. split; [reflexivity |].
    by rewrite lookup_insert_ne, lookup_singleton_eq, lookup_insert_eq. }
  destruct (json_loads E t) as [e|v].
  - assert (is_parse_error e = true ∧ exn_msg e = msg) as [-> <-].
    { unfold is_parse_error. destruct (exn_cls e); by simplify_eq. }
    simpl. split; [done |]. split; [by apply Hlook |].
    rewrite !attempts_cons, !sleeps_cons, app_nil_r. done.
  - rewrite <- not_a_dict_msg_eq in Hparse.
    destruct v; simplify_eq/=; (split; [done |]); (split; [by apply Hlook |]);
      rewrite !attempts_cons, !sleeps_cons, app_nil_r; done.
Qed.

End decisive_attempts.

(** ** What the classifier makes of the call *)

(** X30: When the lengths of the backoff schedule are lengths that
    [time.sleep] takes, as those of the default schedule are, nothing
    leaves [call_gemini_for_json] but its result: whatever the endpoint and
    the decoder do, it returns a dictionary. *)
Theorem call_returns_a_dictionary (E : env) (generate_content : nat → gen_result)
  (prompt : string) (max_retries : nat) (delay : Z) :
  (∀ k, k < max_retries - 1 → sleepable (delay * 2 ^ Z.of_nat k)) →
  ∃ parsed_data,
    (call_gemini_for_json E generate_content prompt max_retries delay).1
    = inr parsed_data.
Proof.
  intros Hsl.
  unfold call_gemini_for_json. destruct (api_key_missing E); [by eexists |].
  generalize max_retries at 2 as remaining. generalize 0 as attempt.
  generalize "" as text. intros text attempt remaining.
  revert attempt text.
  induction remaining as [|remaining IH]; intros attempt text; [by eexists |].
  assert (∀ e tr text0,
            ∃ parsed_data,
              (if is_parse_error e
               then let '(r, tr') := parse_error_return e text0 in
                    (inr r, tr ++ tr')
               else if attempt <? max_retries - 1
               then match time_sleep E (delay * 2 ^ Z.of_nat attempt) with
                    | Some sleep_err =>
                        (inl sleep_err,
                         tr ++ [LogError "Gemini API Call/Processing Error" e;
                                Log WARNING "Gemini call failed. Retrying"])
                    | None =>
                        let '(r, tr') :=
                          attempt_loop E generate_content prompt max_retries delay
                            remaining (S attempt) text0 in
                        (r, (tr ++ [LogError "Gemini API Call/Processing Error" e;
                                    Log WARNING "Gemini call failed. Retrying"])
                            ++ [Sleep (delay * 2 ^ Z.of_nat attempt)] ++ tr')
                    end
               else (inr (error_dict (retries_exhausted_msg max_retries e)),
                     tr ++ [LogError "Gemini API Call/Processing Error" e;
                            Log ERROR "Gemini API call failed"])).1
              = inr (A := exn) parsed_data) as Hhandle.
  { intros e tr text0. destruct (is_parse_error e); [by eexists |].
    destruct (Nat.ltb_spec attempt (max_retries - 1)) as [Hlt|Hge]; [| by eexists].
    rewrite (time_sleep_sleepable E) by by apply Hsl.
    destruct (IH (S attempt) text0) as [d Hd].
    destruct (attempt_loop E generate_content prompt max_retries delay remaining
                (S attempt) text0) as [r tr']. simpl in *. by eexists. }
  cbn [attempt_loop].
  destruct (generate_content attempt) as [e|fb|t].
  - apply Hhandle.
  - destruct (negb (String.eqb (finish_reason_of fb) "STOP")); [by eexists |].
    apply Hhandle.
  - destruct (json_loads E t) as [e|v]; [apply Hhandle |].
    destruct v; try apply Hhandle. by eexists.
Qed.

Lemma call_returns_a_dictionary_witness :
  ∃ parsed_data,
    (call_gemini_for_json quiet_env (fun _ => Raises deadline_exceeded)
       "prompt" 3 5).1
    = inr parsed_data.
Proof.
  apply (call_returns_a_dictionary quiet_env (fun _ => Raises deadline_exceeded)
           "prompt" 3 5).
  intros k Hk. unfold sleepable.
  assert (k = 0 ∨ k = 1) as [-> | ->] by lia; simpl; lia.
Defined.

Section detect_table_facts.
Context (E : env) (generate_content : nat → gen_result) (page_text : string).
Hypothesis Hkey : api_key_missing E = false.
Hypothesis Htext : PyStr.whitespace_only page_text = false.

Lemma detect_table_calls :
  detect_table E generate_content page_text
  = match call_gemini_for_json E generate_content (wrap_prompt E page_text) 3 5 with
    | (inl e, tr) =>
        ({| det_response := ∅; det_error := PyStr (exn_msg e) |},
         tr ++ [LogError "Table Detection Pipeline Error" e])
    | (inr parsed_data, tr) =>
        match parsed_data !! "error" with
        | Some err => ({| det_response := parsed_data; det_error := err |}, tr)
        | None =>
            let '(valid, trv) :=
              validate_table_detection_response (PyDict parsed_data) in
            if negb valid then
              ({| det_response := parsed_data;
                  det_error := PyStr invalid_format_error |},
               tr ++ trv ++ [LogError "Table Detection Validation"
                               (Exn ValueError invalid_format_error)])
            else ({| det_response := parsed_data; det_error := PyNone |}, tr ++ trv)
        end
    end.
Proof.
  unfold detect_table.
  assert (PyStr.strip page_text ≠ "") as Hstrip.
  { intros H%PyStrFacts.strip_empty_iff. congruence. }
  assert (page_text ≠ "") as Hne by (intros ->; done).
  apply String.eqb_neq in Hstrip, Hne. simpl. by rewrite Hstrip, Hne.
Qed.

(** X6: A call that fails three times with a transient error is a classifier
    failure: the detection carries, as its error and under the [error] key
    of its response, the message [Gemini API call failed after 3 attempts: ]
    followed by the error of the third attempt. *)
Lemma detect_table_surfaces_last_error :
  (∀ k, k < 3 → retryable E (generate_content k) = true) →
  (detect_table E generate_content page_text).1
  = {| det_response :=
         {["error" :=
             PyStr ("Gemini API call failed after 3 attempts: "
                    +:+ exn_msg (error_of E (generate_content 2)))]};
       det_error :=
         PyStr ("Gemini API call failed after 3 attempts: "
                +:+ exn_msg (error_of E (generate_content 2))) |}
  ∧ attempts (detect_table E generate_content page_text).2 = 3.
Proof.
  intros Hall. rewrite detect_table_calls.
  destruct (retries_exhausted E generate_content (wrap_prompt E page_text) 3 5 3 0 "")
    as (H1 & H2 & _); [done | lia | intros; apply Hall; lia | |].
  { intros k Hk. unfold sleepable.
    assert (k = 0 ∨ k = 1) as [-> | ->] by lia; simpl; lia. }
  unfold call_gemini_for_json in *. rewrite Hkey.
  destruct (attempt_loop E generate_content (wrap_prompt E page_text) 3 5 3 0 "")
    as [r tr]. simpl in H1, H2. subst r.
  by rewrite lookup_singleton_eq.
Qed.


End detect_table_facts.

(** ** The merge, page by page *)

Section merge_facts.
Context (E : env) (reader : list page).

Lemma merger_degrade (msg : string) (st : merge_state) :
  merger (degrade msg st) = merger st.
Proof. done. Qed.

(** One iteration appends what the page contributes, and nothing else. *)
Lemma merge_page_merger (st : merge_state) (i : nat) :
  merger (merge_page E reader st i)
  = merger st ++ option_list (page_contribution E reader (merge_fs st) i).
Proof.
  unfold merge_page, convert_html, original_page, page_contribution,
    original_contribution, append_from, PdfReader.
  destruct (merge_fs st !! full_html (i + 1)) as [h|] eqn:Hh; simpl.
  - destruct (pdfkit_from_file E (i + 1) h) as [e|[f|]]; simpl.
    + destruct (reader !! i) as [pg|];
        destruct (original_write_error E i) as [[we [lf|]]|]; simpl;
        rewrite ?lookup_insert_eq, ?app_nil_r; simpl; done.
    + rewrite lookup_insert_eq. simpl.
      destruct f as [t|[|pg ps]|names|]; simpl; by rewrite ?app_nil_r.
    + destruct (merge_fs st !! converted_pdf (i + 1)) as [f|]; simpl;
        [| by rewrite app_nil_r].
      destruct f as [t|[|pg ps]|names|]; simpl; by rewrite ?app_nil_r.
  - destruct (reader !! i) as [pg|];
      destruct (original_write_error E i) as [[we [lf|]]|]; simpl;
      rewrite ?lookup_insert_eq, ?app_nil_r; simpl; done.
Qed.

(** One iteration writes only the two files of its own page. *)
Lemma merge_page_fs (st : merge_state) (i : nat) (p : path) :
  p ≠ converted_pdf (i + 1) → p ≠ original_for_merge (i + 1) →
  merge_fs (merge_page E reader st i) !! p = merge_fs st !! p.
Proof.
  intros Hc Ho.
  unfold merge_page, convert_html, original_page, append_from, PdfReader.
  destruct (merge_fs st !! full_html (i + 1)) as [h|]; simpl.
  - destruct (pdfkit_from_file E (i + 1) h) as [e|[f|]]; simpl.
    + destruct (reader !! i) as [pg|];
        destruct (original_write_error E i) as [[we [lf|]]|]; simpl;
        rewrite ?lookup_insert_eq; simpl; by rewrite ?lookup_insert_ne.
    + rewrite lookup_insert_eq. simpl.
      destruct f as [t|[|pg ps]|names|]; simpl; by rewrite lookup_insert_ne.
    + destruct (merge_fs st !! converted_pdf (i + 1)) as [f|]; simpl; [| done].
      by destruct f as [t|[|pg ps]|names|].
  - destruct (reader !! i) as [pg|];
      destruct (original_write_error E i) as [[we [lf|]]|]; simpl;
      rewrite ?lookup_insert_eq; simpl; by rewrite ?lookup_insert_ne.
Qed.

(** The merge stays successful only through iterations that append. *)
Lemma merge_page_successful (st : merge_state) (i : nat) :
  merge_is_successful (merge_page E reader st i) = true →
  merge_is_successful st = true
  ∧ is_Some (page_contribution E reader (merge_fs st) i).
Proof.
  unfold merge_page, convert_html, original_page, page_contribution,
    original_contribution, append_from, PdfReader.
  destruct (merge_fs st !! full_html (i + 1)) as [h|] eqn:Hh; simpl.
  - destruct (pdfkit_from_file E (i + 1) h) as [e|[f|]]; simpl.
    + destruct (reader !! i) as [pg|];
        destruct (original_write_error E i) as [[we [lf|]]|]; simpl;
        rewrite ?lookup_insert_eq; simpl; done.
    + rewrite lookup_insert_eq. simpl.
      destruct f as [t|[|pg ps]|names|]; simpl; by eauto.
    + destruct (merge_fs st !! converted_pdf (i + 1)) as [f|]; simpl; [| done].
      destruct f as [t|[|pg ps]|names|]; simpl; by eauto.
  - destruct (reader !! i) as [pg|];
      destruct (original_write_error E i) as [[we [lf|]]|]; simpl;
      rewrite ?lookup_insert_eq; simpl; by eauto.
Qed.

(** What a page contributes depends on the work area through the markup
    artifact and the converted document of that page only. *)
Lemma page_contribution_ext (fs fs0 : gmap path file) (i : nat) :
  fs !! full_html (i + 1) = fs0 !! full_html (i + 1) →
  fs !! converted_pdf (i + 1) = fs0 !! converted_pdf (i + 1) →
  page_contribution E reader fs i = page_contribution E reader fs0 i.
Proof. intros H1 H2. unfold page_contribution. by rewrite H1, H2. Qed.

Lemma agree_from_step (a : nat) (st : merge_state) (fs0 : gmap path file) :
  agree_from a (merge_fs st) fs0 →
  agree_from (S a) (merge_fs (merge_page E reader st a)) fs0.
Proof.
  intros H k Hk. destruct (H k) as [H1 H2]; [lia |].
  rewrite !merge_page_fs; [done | | | |]; intros [=]; lia.
Qed.

Lemma merge_fold_merger (n : nat) :
  ∀ (a : nat) (st : merge_state) (fs0 : gmap path file),
    agree_from a (merge_fs st) fs0 →
    merger (foldl (merge_page E reader) st (seq a n))
    = merger st ++ omap (page_contribution E reader fs0) (seq a n).
Proof.
  induction n as [|n IH]; intros a st fs0 Hag; simpl.
  { by rewrite app_nil_r. }
  rewrite (IH (S a) _ fs0) by by apply agree_from_step.
  rewrite merge_page_merger.
  destruct (Hag a) as [H1 H2]; [lia |].
  rewrite (page_contribution_ext _ fs0) by done.
  rewrite <- app_assoc. f_equal.
  by destruct (page_contribution E reader fs0 a).
Qed.


Lemma merge_fold_fs (n : nat) (p : path) :
  (∀ k, p ≠ converted_pdf k) → (∀ k, p ≠ original_for_merge k) →
  ∀ (a : nat) (st : merge_state),
    merge_fs (foldl (merge_page E reader) st (seq a n)) !! p = merge_fs st !! p.
Proof.
  intros Hc Ho. induction n as [|n IH]; intros a st; simpl; [done |].
  by rewrite IH, merge_page_fs.
Qed.

(** The loop: the merged pages are the contributions of the pages, in
    page order. *)
Lemma merge_loop_merger (fs : gmap path file) :
  merger (merge_loop E reader fs)
  = omap (page_contribution E reader fs) (seq 0 (length reader)).
Proof.
  unfold merge_loop.
  by rewrite (merge_fold_merger _ 0 (merge_init fs) fs).
Qed.


End merge_facts.

(** ** Page tasks keep to their own files *)

Lemma pointwise_id (P : path → Prop) : pointwise_on P (fun fs => fs).
Proof. by exists (fun _ o => o). Qed.

Lemma pointwise_compose (P : path → Prop) (u v : gmap path file → gmap path file) :
  pointwise_on P u → pointwise_on P v → pointwise_on P (fun fs => v (u fs)).
Proof.
  intros (g & Hg & Hgid) (h & Hh & Hhid).
  exists (fun p o => h p (g p o)). split.
  - intros fs p. by rewrite Hh, Hg.
  - intros p o Hp. by rewrite Hgid, Hhid.
Qed.

Lemma pointwise_insert (P : path → Prop) (p : path) (f : file) :
  P p → pointwise_on P (insert p f).
Proof.
  intros Hp. exists (fun q o => if decide (p = q) then Some f else o). split.
  - intros fs q. rewrite lookup_insert. by case_decide.
  - intros q o Hq. case_decide; [by subst | done].
Qed.

Lemma pointwise_delete (P : path → Prop) (p : path) :
  P p → pointwise_on P (delete p).
Proof.
  intros Hp. exists (fun q o => if decide (p = q) then None else o). split.
  - intros fs q. rewrite lookup_delete. by case_decide.
  - intros q o Hq. case_decide; [by subst | done].
Qed.


Section local_tasks.
Context (P : path → Prop).

Lemma local_ret {A : Type} (a : A) : local_task P (mret a).
Proof. exists (inr a), [], (fun fs => fs). split; [apply pointwise_id | done]. Qed.

Lemma local_raise {A : Type} (e : exn) : local_task P (raise (A := A) e).
Proof. exists (inl e), [], (fun fs => fs). split; [apply pointwise_id | done]. Qed.

Lemma local_emit (tr : list event) : local_task P (emit tr).
Proof. exists (inr tt), tr, (fun fs => fs). split; [apply pointwise_id | done]. Qed.

Lemma local_write (p : path) (f : file) : P p → local_task P (write_file p f).
Proof.
  intros Hp. exists (inr tt), [], (insert p f).
  split; [by apply pointwise_insert | done].
Qed.

Lemma local_fail_write {A : Type} (p : path) (w : write_failure) :
  P p → local_task P (fail_write (A := A) p w).
Proof.
  intros Hp. unfold fail_write. destruct (left_behind w) as [f|].
  - exists (inl (write_exn w)), [], (insert p f).
    split; [by apply pointwise_insert | done].
  - exists (inl (write_exn w)), [], (fun fs => fs).
    split; [apply pointwise_id | done].
Qed.

Lemma local_bind {A B : Type} (m : task A) (k : A → task B) :
  local_task P m → (∀ a, local_task P (k a)) → local_task P (m ≫= k).
Proof.
  intros (r & tr & u & Hu & Hm) Hk. destruct r as [e|a].
  - exists (inl e), tr, u. split; [done |]. intros fs.
    unfold mbind, task_bind. by rewrite Hm.
  - destruct (Hk a) as (r' & tr' & v & Hv & Hka).
    exists r', (tr ++ tr'), (fun fs => v (u fs)).
    split; [by apply pointwise_compose |]. intros fs.
    unfold mbind, task_bind. by rewrite Hm, Hka.
Qed.

Lemma local_try_catch {A : Type} (m : task A) (h : exn → task A) :
  local_task P m → (∀ e, local_task P (h e)) → local_task P (try_catch m h).
Proof.
  intros (r & tr & u & Hu & Hm) Hh. destruct r as [e|a].
  - destruct (Hh e) as (r' & tr' & v & Hv & Hhe).
    exists r', (tr ++ tr'), (fun fs => v (u fs)).
    split; [by apply pointwise_compose |]. intros fs.
    unfold try_catch. by rewrite Hm, Hhe.
  - exists (inr a), tr, u. split; [done |]. intros fs.
    unfold try_catch. by rewrite Hm.
Qed.

End local_tasks.

Create HintDb local_task discriminated.
#[local] Hint Resolve local_ret local_raise local_emit : local_task.

Local Ltac local_step :=
  match goal with
  | |- local_task _ (_ ≫= _) => apply local_bind; [| intros]
  | |- local_task _ (try_catch _ _) => apply local_try_catch; [| intros]
  | |- local_task _ (write_file _ _) => apply local_write; unfold owned_by; auto
  | |- local_task _ (fail_write _ _) =>
      apply local_fail_write; unfold owned_by; auto
  | |- local_task _ (match ?x with _ => _ end) => destruct x
  | |- local_task _ _ => solve [auto with local_task]
  end.

Section page_task_facts.
Context (E : env) (reader : list page).

Lemma save_pdf_page_local (P : path → Prop) (page_index : nat) (p : path) :
  P p → local_task P (save_pdf_page E reader page_index p).
Proof. intros Hp. unfold save_pdf_page. repeat local_step. Qed.

Lemma rasterize_local (P : path → Prop) (page_num : nat) :
  P (page_images page_num) → local_task P (rasterize E page_num).
Proof. intros Hp. unfold rasterize, leave_images. repeat local_step. Qed.

(** The removal of the split page acts on that file only. *)
Lemma unlink_split_page_pointwise (page_index : nat) :
  pointwise_on (owned_by page_index)
    (fun fs => (unlink_split_page E (page_index + 1) fs).1).
Proof.
  exists (fun q o =>
            if decide (q = split_page (page_index + 1))
            then match unlink_error E (page_index + 1) with
                 | None => None
                 | Some _ => o
                 end
            else o).
  split.
  - intros fs q. unfold unlink_split_page.
    destruct (fs !! split_page (page_index + 1)) as [f|] eqn:Hf;
      destruct (unlink_error E (page_index + 1)); simpl;
      case_decide; subst; rewrite ?lookup_delete_eq, ?lookup_delete_ne by done;
      done.
  - intros q o Hq. case_decide; [| done]. subst. destruct Hq. by left.
Qed.

Lemma ocr_local (P : path → Prop) (page_num : nat) (image : string) :
  local_task P (ocr E page_num image).
Proof. unfold ocr. repeat local_step. Qed.

Lemma after_detection_local (page_index : nat) (image text : string)
  (d : detection_result) :
  local_task (owned_by page_index)
    (after_detection E (page_index + 1) image text d).
Proof. unfold after_detection. repeat local_step. Qed.

Lemma page_body_local (page_index : nat) :
  local_task (owned_by page_index) (page_body E reader page_index).
Proof.
  unfold page_body.
  apply local_bind; [apply save_pdf_page_local; by left | intros _].
  apply local_bind; [apply rasterize_local; by right; right | intros image].
  apply local_bind; [apply ocr_local | intros text].
  destruct (detect_table E (classify_endpoint E (page_index + 1)) text) as [d trd].
  apply local_bind; [apply local_emit | intros _].
  apply after_detection_local.
Qed.

(** A page task changes the files of its own page only, and what it
    returns does not depend on the work area it finds. *)
Lemma process_single_page_local (page_index : nat) :
  ∃ r u, pointwise_on (owned_by page_index) u
         ∧ ∀ fs, (process_single_page E reader page_index fs).1 = (r, u fs).
Proof.
  destruct (page_body_local page_index) as (r & tr & u & Hu & Hbody).
  assert (pointwise_on (owned_by page_index)
            (fun fs => (unlink_split_page E (page_index + 1) (u fs)).1)) as Hdel.
  { apply (pointwise_compose _ u
             (fun fs => (unlink_split_page E (page_index + 1) fs).1));
      [done | apply unlink_split_page_pointwise]. }
  destruct r as [page_err|result];
    eexists _, (fun fs => (unlink_split_page E (page_index + 1) (u fs)).1);
    (split; [done |]); intros fs;
    unfold process_single_page; rewrite Hbody;
    destruct (unlink_split_page E (page_index + 1) (u fs)); reflexivity.
Qed.

Lemma task_effect_pointwise (page_index : nat) :
  pointwise_on (owned_by page_index) (task_effect E reader page_index).
Proof.
  destruct (process_single_page_local page_index) as (r & u & (g & Hg & Hid) & Hp).
  exists g. split; [| done].
  intros fs p. unfold task_effect. rewrite Hp. apply Hg.
Qed.



Lemma run_tasks_cons (i : nat) (order : list nat) (fs : gmap path file) :
  (run_tasks E reader (i :: order) fs).2
  = (run_tasks E reader order (task_effect E reader i fs)).2.
Proof.
  simpl. unfold task_effect.
  destruct (process_single_page E reader i fs) as [[r fs1] tr]. simpl.
  by destruct (run_tasks E reader order fs1).
Qed.


(** The pool leaves alone every file that is not a split page or a markup
    artifact: so the source document, and what the merge writes. *)
Lemma run_tasks_frame (order : list nat) (p : path) :
  (∀ i, ¬ owned_by i p) →
  ∀ fs, (run_tasks E reader order fs).2 !! p = fs !! p.
Proof.
  intros Hp. induction order as [|i order IH]; intros fs; [done |].
  rewrite run_tasks_cons, IH.
  destruct (task_effect_pointwise i) as (g & Hg & Hid).
  rewrite Hg. by apply Hid.
Qed.

End page_task_facts.


Lemma process_pdf_frame (E : env) (order : list nat) (fs : gmap path file)
  (p : path) :
  (∀ i, ¬ owned_by i p) →
  (process_pdf_in_tempdir E order fs).2 !! p = fs !! p.
Proof.
  intros Hp. unfold process_pdf_in_tempdir.
  destruct (mkdir_error E); [done |].
  destruct (PdfReader fs input_pdf) as [e|reader]; [done |].
  destruct (length reader =? 0); [done |].
  pose proof (run_tasks_frame E reader order p Hp fs) as H.
  destruct (run_tasks E reader order fs) as [rs1 fs1].
  by destruct (harvest rs1).
Qed.


(** ** The merged document *)


Lemma omap_cons {A B : Type} (f : A → option B) (x : A) (l : list A) :
  omap f (x :: l) = option_list (f x) ++ omap f l.
Proof. unfold omap. simpl. by destruct (f x). Qed.

Lemma omap_total {A B : Type} (f : A → option B) (l : list A) :
  (∀ x, x ∈ l → is_Some (f x)) → Some <$> omap f l = f <$> l.
Proof.
  induction l as [|x l IH]; intros Hall; [done |].
  destruct (Hall x) as [y Hy]; [by left |].
  rewrite omap_cons, Hy, fmap_app, !fmap_cons, Hy, IH; [done |].
  intros z Hz. apply Hall. by right.
Qed.

Lemma omap_none {A B : Type} (f : A → option B) (l : list A) :
  (∀ x, x ∈ l → f x = None) → omap f l = [].
Proof.
  induction l as [|x l IH]; intros Hall; [done |].
  rewrite omap_cons, (Hall x) by by left.
  apply IH. intros z Hz. apply Hall. by right.
Qed.

(** When every index below [n] yields something, the results are the [n]
    values, each at its index. *)
Lemma omap_seq_total {B : Type} (f : nat → option B) (n : nat) :
  (∀ i, i < n → is_Some (f i)) →
  length (omap f (seq 0 n)) = n
  ∧ ∀ i, i < n → omap f (seq 0 n) !! i = f i.
Proof.
  intros Hall.
  assert (Some <$> omap f (seq 0 n) = f <$> seq 0 n) as Heq.
  { apply omap_total. intros i [_ Hi]%elem_of_seq. apply Hall. lia. }
  split.
  - apply (f_equal length) in Heq. by rewrite !length_fmap, length_seq in Heq.
  - intros i Hi. apply (f_equal (fun l => l !! i)) in Heq.
    rewrite !list_lookup_fmap, lookup_seq_lt in Heq by done. simpl in Heq.
    destruct (omap f (seq 0 n) !! i); simpl in Heq; by simplify_eq.
Qed.

Section merged_document.
Context (E : env) (fs : gmap path file) (reader : list page).
Hypothesis Hsource : PdfReader fs input_pdf = inr reader.



End merged_document.




(** ** Degraded and failed merges *)

Section degraded_merge.
Context (E : env) (reader : list page).

Lemma merge_page_conversion_fails (st : merge_state) (i : nat) :
  conversion_fails E (merge_fs st) i →
  merge_is_successful (merge_page E reader st i) = false.
Proof.
  intros (h & e & Hh & He).
  unfold merge_page, convert_html, original_page, append_from, PdfReader.
  rewrite Hh, He. simpl.
  destruct (reader !! i) as [pg|];
    destruct (original_write_error E i) as [[we [lf|]]|]; simpl;
    rewrite ?lookup_insert_eq; simpl; done.
Qed.

Lemma merge_page_stays_failed (st : merge_state) (i : nat) :
  merge_is_successful st = false →
  merge_is_successful (merge_page E reader st i) = false.
Proof.
  intros Hst. apply not_true_is_false. intros Hok.
  destruct (merge_page_successful E reader st i Hok) as [Hst' _]. congruence.
Qed.

Lemma merge_fold_stays_failed (l : list nat) (st : merge_state) :
  merge_is_successful st = false →
  merge_is_successful (foldl (merge_page E reader) st l) = false.
Proof.
  revert st. induction l as [|i l IH]; intros st Hst; simpl; [done |].
  by apply IH, merge_page_stays_failed.
Qed.

Lemma merge_fold_conversion_fails (n : nat) :
  ∀ (a k : nat) (st : merge_state) (fs0 : gmap path file),
    agree_from a (merge_fs st) fs0 →
    a ≤ k < a + n →
    conversion_fails E fs0 k →
    merge_is_successful (foldl (merge_page E reader) st (seq a n)) = false.
Proof.
  induction n as [|n IH]; intros a k st fs0 Hag Hk Hfail; simpl; [lia |].
  destruct (decide (k = a)) as [->|Hne].
  - apply merge_fold_stays_failed, merge_page_conversion_fails.
    destruct Hfail as (h & e & Hh & He). exists h, e.
    destruct (Hag a) as [H1 _]; [lia |]. by rewrite H1.
  - apply (IH (S a) k _ fs0); [by apply agree_from_step | lia | done].
Qed.

Lemma merge_loop_conversion_fails (fs : gmap path file) (k : nat) :
  k < length reader →
  conversion_fails E fs k →
  merge_is_successful (merge_loop E reader fs) = false.
Proof.
  intros Hk Hfail. unfold merge_loop.
  apply (merge_fold_conversion_fails (length reader) 0 k (merge_init fs) fs);
    [by intros j _ | lia | done].
Qed.

End degraded_merge.

(** C7: when the renderer raises on the markup of one page and nothing
    else goes wrong (the original of that page can be extracted, every
    other page yields a page, the merged document can be written), the
    merge writes a document with as many pages as the source, with the
    original page in the place of the failed one, and reports a degraded
    merge; the verdict of the run is then "succeeded with degraded pages". *)
Theorem renderer_failure_falls_back (E : env) (fs : gmap path file)
  (reader : list page) (k : nat) (pg : page) :
  PdfReader fs input_pdf = inr reader →
  reader !! k = Some pg →
  conversion_fails E fs k →
  original_write_error E k = None →
  (∀ i, i < length reader → i ≠ k → is_Some (page_contribution E reader fs i)) →
  final_write_error E = None →
  ∃ pages,
    output_pages (merge_final_pdf E fs) = Some pages
    ∧ length pages = length reader
    ∧ pages !! k = Some pg
    ∧ (merge_final_pdf E fs).1.1 = (false, Some final_merged)
    ∧ ∀ processing,
        run_verdict processing (merge_final_pdf E fs).1 = SucceededDegraded.
Proof.
  intros Hsource Hpg Hfail Horig Hothers Hwrite.
  assert (k < length reader) as Hk by by eapply lookup_lt_Some.
  assert (page_contribution E reader fs k = Some pg) as Hcontrib.
  { destruct Hfail as (h & e & Hh & He).
    unfold page_contribution, original_contribution.
    by rewrite Hh, He, Horig. }
  assert (∀ i, i < length reader → is_Some (page_contribution E reader fs i))
    as Hall.
  { intros i Hi. destruct (decide (i = k)) as [->|Hne]; [by rewrite Hcontrib | auto]. }
  destruct (omap_seq_total _ _ Hall) as [Hlen Hlook].
  pose proof (merge_loop_conversion_fails E reader fs k Hk Hfail) as Hdeg.
  pose proof (merge_loop_merger E reader fs) as Hmerger.
  exists (omap (page_contribution E reader fs) (seq 0 (length reader))).
  unfold merge_final_pdf. rewrite Hsource. cbv zeta.
  rewrite Hmerger, Hlen, Hwrite.
  assert ((0 <? length reader) = true) as -> by (apply Nat.ltb_lt; lia).
  simpl. rewrite lookup_insert_eq, Hdeg, Hlook, Hcontrib by done.
  repeat split. intros [ok msg]. simpl. by rewrite andb_false_r.
Qed.

Lemma renderer_failure_falls_back_witness :
  ∃ pages,
    output_pages (merge_final_pdf renderer_fails_on_3 (work_area_with_markup 5 3))
    = Some pages
    ∧ length pages
      = length ["original 1"; "original 2"; "original 3"; "original 4"; "original 5"]
    ∧ pages !! 2 = Some "original 3"
    ∧ (merge_final_pdf renderer_fails_on_3 (work_area_with_markup 5 3)).1.1
      = (false, Some final_merged)
    ∧ ∀ processing,
        run_verdict processing
          (merge_final_pdf renderer_fails_on_3 (work_area_with_markup 5 3)).1
        = SucceededDegraded.
Proof.
  apply (renderer_failure_falls_back renderer_fails_on_3 (work_area_with_markup 5 3)
           ["original 1"; "original 2"; "original 3"; "original 4"; "original 5"]
           2 "original 3").
  - reflexivity.
  - reflexivity.
  - exists (HtmlFile "<html>...</html>"), tool_failure. split; reflexivity.
  - reflexivity.
  - intros i Hi Hne.
    destruct i as [|[|[|[|[|i]]]]]; simpl in Hi; try lia; try done;
      vm_compute; eauto.
  - reflexivity.
Defined.

(** C8: when no page index contributes a page, the merge is a hard
    failure: it returns no output path and an error message, it leaves
    [final_merged.pdf] as it found it, and the verdict of the run is
    "failed". *)
Theorem no_page_merged_is_failure (E : env) (fs : gmap path file) :
  (∀ reader, PdfReader fs input_pdf = inr reader →
     ∀ i, i < length reader → page_contribution E reader fs i = None) →
  (merge_final_pdf E fs).1.1 = (false, None)
  ∧ is_Some (merge_final_pdf E fs).1.2
  ∧ (merge_final_pdf E fs).2 !! final_merged = fs !! final_merged
  ∧ output_pages (merge_final_pdf E fs) = None
  ∧ ∀ processing, run_verdict processing (merge_final_pdf E fs).1 = Failed.
Proof.
  intros Hnone. unfold merge_final_pdf.
  destruct (PdfReader fs input_pdf) as [e|reader] eqn:Hsource; [by eauto |].
  cbv zeta. rewrite merge_loop_merger, omap_none.
  - simpl. repeat split; [| by apply merge_fold_fs].
    by destruct (overall_merge_error_message (merge_loop E reader fs)) as [[|]|];
      simpl; eauto.
  - intros i [_ Hi]%elem_of_seq. apply (Hnone reader); [done | lia].
Qed.

Lemma no_page_merged_is_failure_witness :
  (merge_final_pdf no_original (fresh_work_area 2)).1.1 = (false, None)
  ∧ is_Some (merge_final_pdf no_original (fresh_work_area 2)).1.2
  ∧ (merge_final_pdf no_original (fresh_work_area 2)).2 !! final_merged
    = fresh_work_area 2 !! final_merged
  ∧ output_pages (merge_final_pdf no_original (fresh_work_area 2)) = None
  ∧ ∀ processing,
      run_verdict processing (merge_final_pdf no_original (fresh_work_area 2)).1
      = Failed.
Proof.
  apply (no_page_merged_is_failure no_original (fresh_work_area 2)).
  intros reader Hsource i Hi.
  unfold page_contribution, original_contribution, fresh_work_area.
  rewrite lookup_singleton_ne by done. reflexivity.
Defined.

(** * Further properties *)

(** ** The retry loop, for every budget and delay *)

Local Ltac count_all :=
  rewrite ?attempts_cons, ?sleeps_cons;
  change (attempts []) with 0;
  change (sleeps []) with (@nil Z);
  simpl.

Section retry_schedule.
Context (E : env) (generate_content : nat → gen_result) (prompt : string).
Context (max_retries : nat) (delay : Z).

Local Abbreviation loop' := (attempt_loop E generate_content prompt max_retries delay).

(** Every call but the last is followed by one sleep, and there are never
    more calls than [remaining]. *)
Lemma attempt_loop_bounds (remaining : nat) :
  ∀ (attempt : nat) (text : string),
    attempt + remaining = max_retries →
    0 < remaining →
    attempts (loop' remaining attempt text).2 ≤ remaining
    ∧ attempts (loop' remaining attempt text).2
      = S (length (sleeps (loop' remaining attempt text).2)).
Proof.
  induction remaining as [|remaining IH]; intros attempt text Hsum Hpos; [lia |].
  assert (∀ e text0 (tr : list event),
            attempts tr = 1 → sleeps tr = [] →
            let r :=
              if is_parse_error e
              then let '(r, tr') := parse_error_return e text0 in
                   (inr (A := exn) r, tr ++ tr')
              else if attempt <? max_retries - 1
              then match time_sleep E (delay * 2 ^ Z.of_nat attempt) with
                   | Some sleep_err =>
                       (inl sleep_err,
                        tr ++ [LogError "Gemini API Call/Processing Error" e;
                               Log WARNING "Gemini call failed. Retrying"])
                   | None =>
                       let '(r, tr') := loop' remaining (S attempt) text0 in
                       (r, (tr ++ [LogError "Gemini API Call/Processing Error" e;
                                   Log WARNING "Gemini call failed. Retrying"])
                           ++ [Sleep (delay * 2 ^ Z.of_nat attempt)] ++ tr')
                   end
              else (inr (error_dict (retries_exhausted_msg max_retries e)),
                    tr ++ [LogError "Gemini API Call/Processing Error" e;
                           Log ERROR "Gemini API call failed"]) in
            attempts r.2 ≤ S remaining
            ∧ attempts r.2 = S (length (sleeps r.2))) as Hhandle.
  { intros e text0 tr Ha Hs. simpl.
    destruct (is_parse_error e); simpl.
    { rewrite attempts_app, sleeps_app, Ha, Hs. count_all. split; [lia | done]. }
    destruct (attempt <? max_retries - 1) eqn:Hlt; simpl.
    2:{ rewrite attempts_app, sleeps_app, Ha, Hs. count_all. split; [lia | done]. }
    apply Nat.ltb_lt in Hlt.
    destruct (time_sleep E (delay * 2 ^ Z.of_nat attempt)); simpl.
    { rewrite attempts_app, sleeps_app, Ha, Hs. count_all. split; [lia | done]. }
    destruct (IH (S attempt) text0) as (I2 & I3); [lia | lia |].
    destruct (loop' remaining (S attempt) text0) as [r tr']. simpl in *.
    rewrite !attempts_app, !sleeps_app, Ha, Hs. count_all.
    rewrite I3. split; [lia | done]. }
  cbn [attempt_loop].
  destruct (generate_content attempt) as [e|fb|t].
  - apply Hhandle; by count_all.
  - destruct (negb (String.eqb (finish_reason_of fb) "STOP")).
    { cbn [snd]. count_all. split; [lia | done]. }
    apply Hhandle; by count_all.
  - destruct (json_loads E t) as [e|v]; [apply Hhandle; by count_all |].
    destruct v; try (apply Hhandle; by count_all).
    cbn [snd]. count_all. split; [lia | done].
Qed.

End retry_schedule.

(** X1: For every retry budget, and every base delay whose multiples are
    lengths that [time.sleep] takes: when every attempt fails with a
    transient error, [call_gemini_for_json] makes exactly [max_retries]
    calls, sleeps [delay * 2 ^ k] after attempt [k] for every attempt but
    the last, and returns the dictionary whose [error] key holds the
    message [Gemini API call failed after max_retries attempts: ] followed
    by the error of the last attempt. *)
Theorem backoff_schedule (E : env) (generate_content : nat → gen_result)
  (prompt : string) (max_retries : nat) (delay : Z) :
  api_key_missing E = false →
  0 < max_retries →
  (∀ k, k < max_retries → retryable E (generate_content k) = true) →
  (∀ k, k < max_retries - 1 → sleepable (delay * 2 ^ Z.of_nat k)) →
  attempts (call_gemini_for_json E generate_content prompt max_retries delay).2
  = max_retries
  ∧ sleeps (call_gemini_for_json E generate_content prompt max_retries delay).2
    = backoff delay (max_retries - 1)
  ∧ (call_gemini_for_json E generate_content prompt max_retries delay).1
    = inr {["error" :=
              PyStr ("Gemini API call failed after " +:+ pretty max_retries
                     +:+ " attempts: "
                     +:+ exn_msg (error_of E (generate_content (max_retries - 1))))]}.
Proof.
  intros Hkey Hpos Hall Hsl. unfold call_gemini_for_json. rewrite Hkey.
  destruct (retries_exhausted E generate_content prompt max_retries delay
              max_retries 0 "") as (H1 & H2 & H3);
    [done | done | intros; apply Hall; lia | intros; apply Hsl; lia |].
  by rewrite H1, H2, H3.
Qed.

Lemma backoff_schedule_witness :
  attempts (call_gemini_for_json quiet_env (fun _ => Raises deadline_exceeded)
              "prompt" 5 2).2 = 5
  ∧ sleeps (call_gemini_for_json quiet_env (fun _ => Raises deadline_exceeded)
              "prompt" 5 2).2
    = [2; 4; 8; 16]%Z
  ∧ (call_gemini_for_json quiet_env (fun _ => Raises deadline_exceeded)
       "prompt" 5 2).1
    = inr {["error" :=
              PyStr "Gemini API call failed after 5 attempts: 504 Deadline Exceeded"]}.
Proof.
  apply (backoff_schedule quiet_env (fun _ => Raises deadline_exceeded) "prompt" 5 2);
    [reflexivity | lia | intros k _; reflexivity |].
  intros k Hk. unfold sleepable.
  assert (k = 0 ∨ k = 1 ∨ k = 2 ∨ k = 3) as [-> | [-> | [-> | ->]]] by lia;
    simpl; lia.
Defined.

(** X2: A call that fails transiently [k] times, each failure followed by
    its sleep, and then gets a JSON dictionary returns that dictionary
    after [k + 1] calls, having slept [delay * 2 ^ j] after each failed
    attempt [j]. *)
Theorem success_after_transient_failures (E : env)
  (generate_content : nat → gen_result) (prompt : string)
  (max_retries : nat) (delay : Z) (k : nat) (t : string)
  (parsed_json : gmap string pyval) :
  api_key_missing E = false →
  k < max_retries →
  (∀ j, j < k → retryable E (generate_content j) = true) →
  (∀ j, j < k → sleepable (delay * 2 ^ Z.of_nat j)) →
  generate_content k = Text t →
  json_loads E t = inr (PyDict parsed_json) →
  (call_gemini_for_json E generate_content prompt max_retries delay).1
  = inr parsed_json
  ∧ attempts (call_gemini_for_json E generate_content prompt max_retries delay).2
    = k + 1
  ∧ sleeps (call_gemini_for_json E generate_content prompt max_retries delay).2
    = backoff delay k.
Proof.
  intros Hkey Hk Hall Hsl Hgen Hjson.
  destruct (call_after_retries E generate_content prompt max_retries delay k)
    as (text' & H1 & H2 & H3); [done.. |].
  rewrite H1, H2, H3. simpl. rewrite Hgen, Hjson. count_all.
  by rewrite app_nil_r.
Qed.

Lemma success_after_transient_failures_witness :
  (call_gemini_for_json quiet_env (flaky 2 (Text "table")) "prompt" 3 5).1
  = inr (detection_response (PyBool true) (PyFloat 0.75%float))
  ∧ attempts (call_gemini_for_json quiet_env (flaky 2 (Text "table")) "prompt" 3 5).2
    = 2 + 1
  ∧ sleeps (call_gemini_for_json quiet_env (flaky 2 (Text "table")) "prompt" 3 5).2
    = [5; 10]%Z.
Proof.
  apply (success_after_transient_failures quiet_env (flaky 2 (Text "table"))
           "prompt" 3 5 2 "table");
    [reflexivity | lia | | | reflexivity | reflexivity].
  - intros [|[|j]] Hj; [reflexivity | reflexivity | lia].
  - intros j Hj. unfold sleepable.
    assert (j = 0 ∨ j = 1) as [-> | ->] by lia; simpl; lia.
Defined.

Lemma blocked_response_ends_call_witness :
  (call_gemini_for_json quiet_env (flaky 1 (Empty blocked_for_safety)) "prompt" 3 5).1
  = inr {["error" :=
            PyStr ("Gemini response empty or blocked. Finish Reason: SAFETY, "
                   +:+ "Safety: [HARM_CATEGORY_DANGEROUS]")]}
  ∧ (∃ d, (call_gemini_for_json quiet_env (flaky 1 (Empty blocked_for_safety))
             "prompt" 3 5).1 = inr d
          ∧ d !! "error"
            = Some (PyStr ("Gemini response empty or blocked. Finish Reason: SAFETY, "
                           +:+ "Safety: [HARM_CATEGORY_DANGEROUS]")))
  ∧ attempts (call_gemini_for_json quiet_env (flaky 1 (Empty blocked_for_safety))
                "prompt" 3 5).2 = 1 + 1
  ∧ sleeps (call_gemini_for_json quiet_env (flaky 1 (Empty blocked_for_safety))
              "prompt" 3 5).2 = [5]%Z.
Proof.
  apply (blocked_response_ends_call quiet_env (flaky 1 (Empty blocked_for_safety))
           "prompt" 3 5 1 blocked_for_safety);
    [reflexivity | lia | | | reflexivity | by intros f [= <-]].
  - intros [|j] Hj; [reflexivity | lia].
  - intros j Hj. unfold sleepable. assert (j = 0) as -> by lia. simpl. lia.
Defined.

Lemma parse_failure_ends_call_witness :
  (call_gemini_for_json quiet_env (flaky 1 (Text "[]")) "prompt" 3 5).1
  = inr (<["raw_text" := PyStr "[]"]>
           {["error" :=
               PyStr ("Failed to parse Gemini response as JSON: "
                      +:+ "Parsed response is not a dictionary "
                      +:+ "(type: <class 'list'>)")]})
  ∧ (∃ d, (call_gemini_for_json quiet_env (flaky 1 (Text "[]")) "prompt" 3 5).1
          = inr d
          ∧ d !! "error"
            = Some (PyStr ("Failed to parse Gemini response as JSON: "
                           +:+ "Parsed response is not a dictionary "
                           +:+ "(type: <class 'list'>)"))
          ∧ d !! "raw_text" = Some (PyStr "[]"))
  ∧ attempts (call_gemini_for_json quiet_env (flaky 1 (Text "[]")) "prompt" 3 5).2
    = 1 + 1
  ∧ sleeps (call_gemini_for_json quiet_env (flaky 1 (Text "[]")) "prompt" 3 5).2
    = [5]%Z.
Proof.
  apply (parse_failure_ends_call quiet_env (flaky 1 (Text "[]")) "prompt" 3 5 1
           "[]" ("Parsed response is not a dictionary "
                 +:+ "(type: <class 'list'>)"));
    [reflexivity | lia | | | reflexivity | reflexivity].
  - intros [|j] Hj; [reflexivity | lia].
  - intros j Hj. unfold sleepable. assert (j = 0) as -> by lia. simpl. lia.
Defined.

(** X5: Whatever the endpoint does, [call_gemini_for_json] never calls it more
    than [max_retries] times, and it sleeps exactly once between two
    consecutive calls. *)
Theorem attempts_never_exceed_budget (E : env)
  (generate_content : nat → gen_result) (prompt : string)
  (max_retries : nat) (delay : Z) :
  attempts (call_gemini_for_json E generate_content prompt max_retries delay).2
  ≤ max_retries
  ∧ length (sleeps (call_gemini_for_json E generate_content prompt max_retries delay).2)
    = attempts (call_gemini_for_json E generate_content prompt max_retries delay).2 - 1.
Proof.
  unfold call_gemini_for_json. destruct (api_key_missing E).
  { cbn [fst snd]. count_all. split; [lia | done]. }
  destruct max_retries as [|n]; [cbn [attempt_loop snd]; count_all; done |].
  destruct (attempt_loop_bounds E generate_content prompt (S n) delay
              (S n) 0 "") as (H2 & H3); [done | lia |].
  rewrite H3 in *. split; [done | lia].
Qed.

(** X29: An exception of [json.loads] that is not its [JSONDecodeError] (nor
    a [TypeError]) is not a parse failure but a transient one.  At a single
    attempt the call returns the message
    [Gemini API call failed after 1 attempts: ] followed by the message of
    the exception, under [error] and with no [raw_text]; with an attempt
    left it sleeps [delay] and calls the endpoint again. *)
Theorem decoder_crash_is_retried (E : env) (generate_content : nat → gen_result)
  (prompt : string) (max_retries : nat) (delay : Z) (t : string) (e : exn) :
  api_key_missing E = false →
  generate_content 0 = Text t →
  json_loads E t = inl e →
  not_a_parse_error e = true →
  (max_retries = 1 →
   (call_gemini_for_json E generate_content prompt max_retries delay).1
   = inr {["error" :=
             PyStr ("Gemini API call failed after 1 attempts: " +:+ exn_msg e)]})
  ∧ (1 < max_retries → sleepable delay →
     2 ≤ attempts (call_gemini_for_json E generate_content prompt max_retries delay).2
     ∧ ∃ rest,
         sleeps (call_gemini_for_json E generate_content prompt max_retries delay).2
         = delay :: rest).
Proof.
  intros Hkey Hgen Hjson Hcrash.
  assert (retryable E (generate_content 0) = true) as Hr.
  { rewrite Hgen. simpl. by rewrite Hjson. }
  unfold call_gemini_for_json. rewrite Hkey. split.
  - intros ->.
    destruct (retry_last E generate_content prompt 1 delay 0 0 "") as (H1 & _);
      [done | simpl; lia |].
    rewrite H1. unfold error_of. by rewrite Hgen, Hjson.
  - intros Hmax Hsleep. destruct max_retries as [|n]; [lia |].
    destruct (retry_step E generate_content prompt (S n) delay n 0 "")
      as (text' & _ & H2 & H3); [done | lia | |].
    { simpl Z.of_nat. by rewrite Z.pow_0_r, Z.mul_1_r. }
    destruct (attempt_loop_bounds E generate_content prompt (S n) delay n 1 text')
      as (_ & H4); [lia | lia |].
    rewrite H2, H3, H4. split; [lia |].
    simpl Z.of_nat. rewrite Z.pow_0_r, Z.mul_1_r. by eexists.
Qed.

Lemma decoder_crash_is_retried_witness :
  (3 = 1 →
   (call_gemini_for_json decoder_overflows (fun _ => Text "[[[[") "prompt" 3 5).1
   = inr {["error" :=
             PyStr ("Gemini API call failed after 1 attempts: "
                    +:+ exn_msg deep_nesting)]})
  ∧ (1 < 3 → sleepable 5 →
     2 ≤ attempts (call_gemini_for_json decoder_overflows (fun _ => Text "[[[[")
                     "prompt" 3 5).2
     ∧ ∃ rest,
         sleeps (call_gemini_for_json decoder_overflows (fun _ => Text "[[[[")
                   "prompt" 3 5).2
         = 5%Z :: rest).
Proof.
  apply (decoder_crash_is_retried decoder_overflows (fun _ => Text "[[[[")
           "prompt" 3 5 "[[[[" deep_nesting); reflexivity.
Defined.

(** X28: A negative base delay makes the first retry leave the call: when
    the first attempt fails with a transient error and is not the last,
    [time.sleep] refuses the negative length, and its [ValueError] leaves
    [call_gemini_for_json] after that one call, no dictionary being
    returned. *)
Theorem negative_delay_leaves_the_call (E : env)
  (generate_content : nat → gen_result) (prompt : string)
  (max_retries : nat) (delay : Z) :
  api_key_missing E = false →
  1 < max_retries →
  (delay < 0)%Z →
  retryable E (generate_content 0) = true →
  (call_gemini_for_json E generate_content prompt max_retries delay).1
  = inl (Exn ValueError "sleep length must be non-negative")
  ∧ attempts (call_gemini_for_json E generate_content prompt max_retries delay).2 = 1
  ∧ sleeps (call_gemini_for_json E generate_content prompt max_retries delay).2 = [].
Proof.
  intros Hkey Hmax Hneg Hr. unfold call_gemini_for_json. rewrite Hkey.
  destruct max_retries as [|n]; [lia |].
  assert ((0 <? S n - 1) = true) as Hlt by (apply Nat.ltb_lt; lia).
  assert (time_sleep E (delay * 2 ^ Z.of_nat 0)
          = Some (Exn ValueError "sleep length must be non-negative")) as Hsleep.
  { unfold time_sleep. simpl Z.of_nat. rewrite Z.pow_0_r, Z.mul_1_r.
    destruct (Z.ltb_spec delay 0); [done | lia]. }
  cbn [attempt_loop].
  destruct (generate_content 0) as [e|[f|]|t]; simpl in Hr; [| | done |].
  - rewrite (is_parse_error_transient e Hr), Hlt, Hsleep. cbn [fst snd].
    by count_all.
  - unfold finish_reason_of. cbn [block_reason]. rewrite Hr. cbn [negb is_parse_error exn_cls].
    rewrite Hlt, Hsleep. cbn [fst snd]. by count_all.
  - destruct (json_loads E t) as [e|v]; [| done].
    rewrite (is_parse_error_transient e Hr), Hlt, Hsleep. cbn [fst snd].
    by count_all.
Qed.

Lemma negative_delay_leaves_the_call_witness :
  (call_gemini_for_json quiet_env (fun _ => Raises deadline_exceeded)
     "prompt" 3 (-5)).1
  = inl (Exn ValueError "sleep length must be non-negative")
  ∧ attempts (call_gemini_for_json quiet_env (fun _ => Raises deadline_exceeded)
                "prompt" 3 (-5)).2 = 1
  ∧ sleeps (call_gemini_for_json quiet_env (fun _ => Raises deadline_exceeded)
              "prompt" 3 (-5)).2 = [].
Proof.
  apply (negative_delay_leaves_the_call quiet_env
           (fun _ => Raises deadline_exceeded) "prompt" 3 (-5));
    [reflexivity | lia | lia | reflexivity].
Defined.

(** ** More on Python's [strip] *)
Module PyStripFacts.
Import PyStr.

Lemma rstrip_cons_nonspace (c : ascii) (s : string) :
  isspace c = false → ∃ r, rstrip (String c s) = String c r.
Proof.
  intros Hc. simpl. destruct (rstrip s) as [|c' r]; [| by eauto].
  rewrite Hc. by eauto.
Qed.

Lemma lstrip_nonspace (s : string) :
  lstrip s = "" ∨ ∃ c r, lstrip s = String c r ∧ isspace c = false.
Proof.
  induction s as [|c s IH]; simpl; [by left |].
  destruct (isspace c) eqn:Hc; [done |]. right. by exists c, s.
Qed.

Lemma rstrip_idempotent (s : string) : rstrip (rstrip s) = rstrip s.
Proof.
  induction s as [|c s IH]; simpl; [done |].
  destruct (rstrip s) as [|c' r] eqn:Hr.
  - destruct (isspace c) eqn:Hc; simpl; [done |]. by rewrite Hc.
  - simpl. simpl in IH. by rewrite IH.
Qed.

Lemma strip_idempotent (s : string) : strip (strip s) = strip s.
Proof.
  unfold strip. destruct (lstrip_nonspace s) as [->|(c & r & -> & Hc)]; [done |].
  destruct (rstrip_cons_nonspace c r Hc) as [r' Hr]. rewrite Hr.
  simpl lstrip. rewrite Hc, <- Hr. apply rstrip_idempotent.
Qed.

Lemma length_lstrip (s : string) : String.length (lstrip s) ≤ String.length s.
Proof.
  induction s as [|c s IH]; simpl; [done |].
  destruct (isspace c); simpl; lia.
Qed.

Lemma length_rstrip (s : string) : String.length (rstrip s) ≤ String.length s.
Proof.
  induction s as [|c s IH]; simpl; [done |].
  destruct (rstrip s) as [|c' r]; [destruct (isspace c) |]; simpl in *; lia.
Qed.

Lemma length_strip (s : string) : String.length (strip s) ≤ String.length s.
Proof.
  unfold strip. etrans; [apply length_rstrip | apply length_lstrip].
Qed.

Lemma length_drop (n : nat) (s : string) :
  String.length (drop n s) ≤ String.length s.
Proof.
  revert s. induction n as [|n IH]; intros [|c s]; simpl; try lia.
  specialize (IH s). lia.
Qed.

Lemma length_take (n : nat) (s : string) :
  String.length (take n s) ≤ String.length s.
Proof.
  revert s. induction n as [|n IH]; intros [|c s]; simpl; try lia.
  specialize (IH s). lia.
Qed.

End PyStripFacts.

(** X10: [clean_ai_html_response] always returns a stripped text, never longer
    than the response; a response that neither starts with the tagged fence
    nor ends with a fence is only stripped. *)
Theorem clean_ai_html_response_is_stripped (response : string) :
  PyStr.strip (clean_ai_html_response response) = clean_ai_html_response response
  ∧ String.length (clean_ai_html_response response) ≤ String.length response
  ∧ (PyStr.startswith response fence_html = false →
     PyStr.endswith response fence = false →
     clean_ai_html_response response = PyStr.strip response).
Proof.
  unfold clean_ai_html_response. split; [apply PyStripFacts.strip_idempotent |].
  split.
  - etrans; [apply PyStripFacts.length_strip |].
    assert (String.length
              (if PyStr.startswith response fence_html
               then PyStr.replace_first response fence_html ""
               else response) ≤ String.length response) as H1.
    { destruct (PyStr.startswith response fence_html) eqn:Hs; [| done].
      rewrite PyStrFacts.replace_first_unfold, Hs.
      apply PyStripFacts.length_drop. }
    destruct (PyStr.endswith _ fence); [| done].
    etrans; [apply PyStripFacts.length_take | done].
  - by intros -> ->.
Qed.

(** ** Markup synthesis *)

Lemma extract_attempts_le (E : env) (generate_content : gen_result)
  (image_path ocr_text : string) :
  attempts (extract_full_page_html_from_image E generate_content
              image_path ocr_text).2 ≤ 1.
Proof.
  unfold extract_full_page_html_from_image.
  repeat case_match; simpl; count_all; lia.
Qed.

(** X9: [extract_full_page_html_from_image] calls the endpoint at most once,
    and not at all without a key or when the image cannot be opened; it
    never returns markup together with an error, and the markup it returns
    is stripped. *)
Theorem synthesis_result_is_consistent (E : env) (generate_content : gen_result)
  (image_path ocr_text : string) :
  attempts (extract_full_page_html_from_image E generate_content
              image_path ocr_text).2 ≤ 1
  ∧ (api_key_missing E = true ∨ is_Some (image_open_error E image_path) →
     attempts (extract_full_page_html_from_image E generate_content
                 image_path ocr_text).2 = 0)
  ∧ (html (extract_full_page_html_from_image E generate_content
             image_path ocr_text).1 ≠ "" →
     html_error (extract_full_page_html_from_image E generate_content
                   image_path ocr_text).1 = None)
  ∧ PyStr.strip (html (extract_full_page_html_from_image E generate_content
                         image_path ocr_text).1)
    = html (extract_full_page_html_from_image E generate_content
              image_path ocr_text).1.
Proof.
  split; [apply extract_attempts_le |].
  unfold extract_full_page_html_from_image.
  destruct (api_key_missing E); simpl; [by repeat split; count_all |].
  destruct (image_open_error E image_path) as [img_err|]; simpl;
    [by repeat split; count_all |].
  destruct generate_content as [e|fb|t]; simpl.
  - split; [by intros [|[]] |]. by split.
  - split; [by intros [|[]] |]. by split.
  - split; [by intros [|[]] |]. split; [done |].
    apply PyStripFacts.strip_idempotent.
Qed.

(** ** Calls made by a page task *)

Lemma call_attempts_le (E : env) (generate_content : nat → gen_result)
  (prompt : string) (max_retries : nat) (delay : Z) :
  attempts (call_gemini_for_json E generate_content prompt max_retries delay).2
  ≤ max_retries.
Proof.
  unfold call_gemini_for_json. destruct (api_key_missing E).
  { cbn [fst snd]. count_all. lia. }
  destruct max_retries as [|n]; [cbn [attempt_loop snd]; by count_all |].
  by destruct (attempt_loop_bounds E generate_content prompt (S n) delay
                 (S n) 0 "") as (H2 & _); [| lia |].
Qed.

Lemma validate_makes_no_call (response : pyval) :
  attempts (validate_table_detection_response response).2 = 0.
Proof.
  unfold validate_table_detection_response.
  repeat case_match; simpl; by count_all.
Qed.

Lemma detect_table_attempts_le (E : env) (generate_content : nat → gen_result)
  (page_text : string) :
  attempts (detect_table E generate_content page_text).2 ≤ 3.
Proof.
  unfold detect_table. case_match; [cbn [snd]; count_all; lia |].
  pose proof (call_attempts_le E generate_content (wrap_prompt E page_text) 3 5) as Hc.
  destruct (call_gemini_for_json E generate_content (wrap_prompt E page_text) 3 5)
    as [[e|parsed_data] tr]; cbn [snd] in Hc.
  { cbn [snd]. rewrite attempts_app. count_all. lia. }
  case_match; [done |].
  pose proof (validate_makes_no_call (PyDict parsed_data)) as Hv.
  destruct (validate_table_detection_response (PyDict parsed_data)) as [valid trv].
  cbn [snd] in Hv.
  destruct valid; cbn [negb snd]; rewrite !attempts_app, ?Hv; [lia |].
  count_all. lia.
Qed.

Section calls_at_most_facts.

Lemma calls_ret {A : Type} (a : A) : calls_at_most 0 (mret a).
Proof. intros fs. cbn. by count_all. Qed.

Lemma calls_raise {A : Type} (e : exn) : calls_at_most 0 (raise (A := A) e).
Proof. intros fs. cbn. by count_all. Qed.

Lemma calls_write (p : path) (f : file) : calls_at_most 0 (write_file p f).
Proof. intros fs. cbn. by count_all. Qed.

Lemma calls_fail_write {A : Type} (p : path) (w : write_failure) :
  calls_at_most 0 (fail_write (A := A) p w).
Proof. intros fs. cbn. by count_all. Qed.

Lemma calls_emit (n : nat) (tr : list event) :
  attempts tr ≤ n → calls_at_most n (emit tr).
Proof. by intros H fs. Qed.

Lemma calls_bind {A B : Type} (a b : nat) (m : task A) (k : A → task B) :
  calls_at_most a m → (∀ x, calls_at_most b (k x)) →
  calls_at_most (a + b) (m ≫= k).
Proof.
  intros Hm Hk fs. specialize (Hm fs). unfold mbind, task_bind.
  destruct (m fs) as [[[e|x] fs1] tr]; cbn [snd] in *; [lia |].
  specialize (Hk x fs1). destruct (k x fs1) as [[r fs2] tr']. cbn [snd] in *.
  rewrite attempts_app. lia.
Qed.

Lemma calls_try_catch {A : Type} (a b : nat) (m : task A) (h : exn → task A) :
  calls_at_most a m → (∀ e, calls_at_most b (h e)) →
  calls_at_most (a + b) (try_catch m h).
Proof.
  intros Hm Hh fs. specialize (Hm fs). unfold try_catch.
  destruct (m fs) as [[[e|x] fs1] tr]; cbn [snd] in *; [| lia].
  specialize (Hh e fs1). destruct (h e fs1) as [[r fs2] tr']. cbn [snd] in *.
  rewrite attempts_app. lia.
Qed.

Lemma calls_weaken {A : Type} (a b : nat) (m : task A) :
  a ≤ b → calls_at_most a m → calls_at_most b m.
Proof. intros Hab Hm fs. specialize (Hm fs). lia. Qed.

End calls_at_most_facts.

Local Ltac no_call :=
  repeat first
    [ apply calls_ret | apply calls_raise | apply calls_write
    | apply calls_fail_write
    | apply calls_emit; by count_all
    | apply (calls_bind 0 0); [| intros]
    | apply (calls_try_catch 0 0); [| intros]
    | match goal with
      | |- calls_at_most _ (match ?x with _ => _ end) => destruct x
      end ].

Section page_calls.
Context (E : env) (reader : list page).

Lemma save_pdf_page_calls (page_index : nat) (p : path) :
  calls_at_most 0 (save_pdf_page E reader page_index p).
Proof. unfold save_pdf_page. no_call. Qed.

Lemma rasterize_calls (page_num : nat) : calls_at_most 0 (rasterize E page_num).
Proof. unfold rasterize, leave_images. no_call. Qed.

Lemma ocr_calls (page_num : nat) (image : string) :
  calls_at_most 0 (ocr E page_num image).
Proof. unfold ocr. no_call. Qed.

Lemma after_detection_calls (page_num : nat) (image text : string)
  (d : detection_result) :
  calls_at_most 1 (after_detection E page_num image text d).
Proof.
  unfold after_detection.
  destruct (truthy (det_error d)).
  { apply (calls_weaken 0); [lia |]. no_call. }
  destruct (det_response d !! "tableDetected") as [[| [|] | | | | |]|];
    try solve [apply (calls_weaken 0); [lia |]; no_call].
  pose proof (extract_attempts_le E (synthesis_endpoint E page_num) image text) as He.
  destruct (extract_full_page_html_from_image E (synthesis_endpoint E page_num)
              image text) as [html_result trh]. cbn [snd] in He.
  apply (calls_bind 1 0); [| intros _; no_call].
  apply calls_emit. rewrite attempts_app. count_all. lia.
Qed.

Lemma page_body_calls (page_index : nat) :
  calls_at_most 4 (page_body E reader page_index).
Proof.
  unfold page_body.
  apply (calls_bind 0 4); [apply save_pdf_page_calls | intros _].
  apply (calls_bind 0 4); [apply rasterize_calls | intros image].
  apply (calls_bind 0 4); [apply ocr_calls | intros text].
  pose proof (detect_table_attempts_le E (classify_endpoint E (page_index + 1)) text)
    as Hd.
  destruct (detect_table E (classify_endpoint E (page_index + 1)) text) as [d trd].
  cbn [snd] in Hd.
  apply (calls_bind 3 1); [| intros _; apply after_detection_calls].
  apply calls_emit. rewrite attempts_app. count_all. lia.
Qed.

End page_calls.

(** X11: A page task calls the generative endpoints at most four times: three
    classification attempts and one synthesis. *)
Theorem page_task_calls_at_most_four (E : env) (reader : list page)
  (page_index : nat) (fs : gmap path file) :
  attempts (process_single_page E reader page_index fs).2 ≤ 4.
Proof.
  pose proof (page_body_calls E reader page_index fs) as H.
  unfold process_single_page.
  destruct (page_body E reader page_index fs) as [[r fs1] tr]. cbn [snd] in H.
  pose proof (unlink_split_page_calls E (page_index + 1) fs1) as Hu.
  destruct (unlink_split_page E (page_index + 1) fs1) as [fs2 tru].
  cbn [snd] in Hu.
  destruct r as [page_err|result]; cbn [snd];
    rewrite !attempts_app, Hu; count_all; lia.
Qed.

(** ** What a page task leaves behind *)

Section preserves_facts.
Context (p : path).

Lemma preserves_local {A : Type} (P : path → Prop) (m : task A) :
  local_task P m → ¬ P p → preserves p m.
Proof.
  intros (r & tr & u & (g & Hg & Hid) & Hm) Hp fs.
  rewrite Hm. simpl. rewrite Hg. by apply Hid.
Qed.

End preserves_facts.

Section page_leftovers.
Context (E : env) (reader : list page).

Lemma fails_cleanly_bind {A : Type} (page_num : nat) (m : task A)
  (k : A → task page_result) :
  preserves (full_html page_num) m → (∀ a, fails_cleanly E page_num (k a)) →
  fails_cleanly E page_num (m ≫= k).
Proof.
  intros Hm Hk fs. specialize (Hm fs). unfold mbind, task_bind.
  destruct (m fs) as [[[e|a] fs1] tr]; simpl in *; [done |].
  specialize (Hk a fs1). destruct (k a fs1) as [[r fs2] tr']. simpl in *.
  destruct r as [e|[[|] [msg|]]]; try done; [congruence |].
  destruct Hk as [Hk|Hk]; [left; congruence | by right].
Qed.

Lemma after_detection_fails_cleanly (page_num : nat)
  (image text : string) (d : detection_result) :
  fails_cleanly E page_num (after_detection E page_num image text d).
Proof.
  intros fs.
  unfold after_detection, try_catch, fail_write, mbind, task_bind, mret, task_ret,
    emit, raise, write_file.
  repeat (case_match; simplify_eq/=; try done); try (by left).
  all: right; eexists _, _; repeat split; try eassumption;
    by rewrite ?lookup_insert_eq.
Qed.

Lemma page_body_fails_cleanly (page_index : nat) :
  fails_cleanly E (page_index + 1) (page_body E reader page_index).
Proof.
  unfold page_body.
  apply fails_cleanly_bind.
  { apply (preserves_local _ (fun q => q = split_page (page_index + 1)));
      [by apply save_pdf_page_local | done]. }
  intros _. apply fails_cleanly_bind.
  { apply (preserves_local _ (fun q => q = page_images (page_index + 1)));
      [by apply rasterize_local | done]. }
  intros image. apply fails_cleanly_bind.
  { apply (preserves_local _ (fun q => q = split_page (page_index + 1)));
      [apply ocr_local | done]. }
  intros text.
  destruct (detect_table E (classify_endpoint E (page_index + 1)) text) as [d trd].
  apply fails_cleanly_bind; [| intros _; apply after_detection_fails_cleanly].
  apply (preserves_local _ (fun q => q = split_page (page_index + 1)));
    [apply local_emit | done].
Qed.

(** The removal of the split page leaves the other files alone. *)
Lemma unlink_split_page_frame (page_num : nat) (fs : gmap path file) (p : path) :
  p ≠ split_page page_num →
  (unlink_split_page E page_num fs).1 !! p = fs !! p.
Proof.
  intros Hp. unfold unlink_split_page.
  repeat case_match; simpl; by rewrite ?lookup_delete_ne.
Qed.

End page_leftovers.

(** X12: A page task returns [(True, None)] or [(False, message)].  One that
    reports a failure leaves the markup artifact of its page as it found
    it, with one exception: when saving the markup failed after the file
    was opened, the artifact holds what the failed write left, and the
    message is that of the failed save. *)
Theorem failed_page_touches_markup_only_in_save (E : env) (reader : list page)
  (page_index : nat) (fs : gmap path file) :
  ((process_single_page E reader page_index fs).1.1.1 = true
   ↔ (process_single_page E reader page_index fs).1.1.2 = None)
  ∧ ((process_single_page E reader page_index fs).1.1.1 = false →
     task_effect E reader page_index fs !! full_html (page_index + 1)
     ≠ fs !! full_html (page_index + 1) →
     ∃ w f,
       html_write_error E (page_index + 1) = Some w
       ∧ left_behind w = Some f
       ∧ task_effect E reader page_index fs !! full_html (page_index + 1) = Some f
       ∧ (process_single_page E reader page_index fs).1.1.2
         = Some ("HTML Save Failed: " +:+ exn_msg (write_exn w))).
Proof.
  pose proof (page_body_fails_cleanly E reader page_index fs) as H.
  unfold task_effect, process_single_page.
  destruct (page_body E reader page_index fs) as [[r fs1] tr]. simpl in H.
  pose proof (unlink_split_page_frame E (page_index + 1) fs1
                (full_html (page_index + 1))) as Hu.
  destruct (unlink_split_page E (page_index + 1) fs1) as [fs2 tru]. simpl in Hu.
  rewrite <- Hu in H by done.
  destruct r as [e|[[|] [msg|]]]; simpl; try done; (split; [done |]).
  intros _ Hne. destruct H as [H|(w & f & H1 & H2 & H3 & ->)]; [done |].
  exists w, f. by rewrite Hu.
Qed.

(** X13: A page task changes no file but the split page, the images and
    the markup artifact of its own page; and it ends with the split page
    removed, unless the removal itself fails. *)
Theorem page_task_keeps_to_its_files (E : env) (reader : list page)
  (page_index : nat) (fs : gmap path file) :
  (unlink_error E (page_index + 1) = None →
   task_effect E reader page_index fs !! split_page (page_index + 1) = None)
  ∧ ∀ p, p ≠ split_page (page_index + 1) → p ≠ full_html (page_index + 1) →
         p ≠ page_images (page_index + 1) →
         task_effect E reader page_index fs !! p = fs !! p.
Proof.
  split.
  - intros Hunlink. unfold task_effect, process_single_page.
    destruct (page_body E reader page_index fs) as [[r fs1] tr].
    assert ((unlink_split_page E (page_index + 1) fs1).1
              !! split_page (page_index + 1) = None) as H.
    { unfold unlink_split_page. rewrite Hunlink.
      destruct (fs1 !! split_page (page_index + 1)) eqn:Hf; simpl;
        [apply lookup_delete_eq | done]. }
    destruct (unlink_split_page E (page_index + 1) fs1) as [fs2 tru].
    by destruct r.
  - intros p Hs Hh Hi.
    destruct (task_effect_pointwise E reader page_index) as (g & Hg & Hid).
    rewrite Hg. apply Hid. by intros [|[|]].
Qed.

(** ** Failures before and in the classification *)


Section page_failures.
Context (E : env) (reader : list page) (page_index : nat) (fs : gmap path file).

(** X14: A page index outside the document fails the task in the splitter:
    nothing is classified and the work area only loses a stale split
    page (which stays when its removal fails). *)
Theorem out_of_range_page_fails :
  length reader ≤ page_index →
  (process_single_page E reader page_index fs).1.1
  = (false,
     Some ("Unhandled Page Error: Page number " +:+ pretty page_index
           +:+ " is out of range for PDF with " +:+ pretty (length reader)
           +:+ " pages."))
  ∧ attempts (process_single_page E reader page_index fs).2 = 0
  ∧ task_effect E reader page_index fs
    = match unlink_error E (page_index + 1) with
      | None => delete (split_page (page_index + 1)) fs
      | Some _ => fs
      end.
Proof.
  intros Hle. apply lookup_ge_None in Hle.
  unfold task_effect, process_single_page, page_body, save_pdf_page, raise,
    mbind, task_bind.
  rewrite Hle. simpl. unfold unlink_split_page.
  destruct (fs !! split_page (page_index + 1)) as [f|] eqn:Hf;
    destruct (unlink_error E (page_index + 1)); simpl.
  all: split; [reflexivity |].
  all: split; [by count_all |].
  all: first [done | by rewrite delete_id].
Qed.

Context (pg : page) (out : raster_output).
Hypothesis Hpage : reader !! page_index = Some pg.
Hypothesis Hsplit : split_write_error E page_index = None.
Hypothesis Hconvert : convert_from_path E (page_index + 1) = inr out.
Hypothesis Hexact : exact_exists out = true.



End page_failures.

Lemma out_of_range_page_fails_witness :
  (process_single_page quiet_env ["original 1"; "original 2"] 2 (fresh_work_area 2)).1.1
  = (false,
     Some ("Unhandled Page Error: Page number " +:+ pretty 2
           +:+ " is out of range for PDF with "
           +:+ pretty (length ["original 1"; "original 2"]) +:+ " pages."))
  ∧ attempts (process_single_page quiet_env ["original 1"; "original 2"] 2
                (fresh_work_area 2)).2 = 0
  ∧ task_effect quiet_env ["original 1"; "original 2"] 2 (fresh_work_area 2)
    = match unlink_error quiet_env (2 + 1) with
      | None => delete (split_page (2 + 1)) (fresh_work_area 2)
      | Some _ => fresh_work_area 2
      end.
Proof.
  apply (out_of_range_page_fails quiet_env ["original 1"; "original 2"] 2
           (fresh_work_area 2)).
  simpl. lia.
Defined.



(** ** Responses that carry an [error] key *)

(** X8: A decoded response that holds an [error] key is returned as it is,
    with that value as the error of the detection, after the one call:
    validation never sees it.  When the value is falsy, the page task goes
    on as it does after a validated response. *)
Theorem error_key_bypasses_validation (E : env)
  (generate_content : nat → gen_result) (page_text t : string)
  (d : gmap string pyval) (err : pyval) :
  api_key_missing E = false →
  PyStr.whitespace_only page_text = false →
  generate_content 0 = Text t →
  json_loads E t = inr (PyDict d) →
  d !! "error" = Some err →
  detect_table E generate_content page_text
  = ({| det_response := d; det_error := err |},
     [GenerateContent (wrap_prompt E page_text)])
  ∧ (truthy err = false →
     ∀ (page_num : nat) (image : string),
       after_detection E page_num image page_text
         (detect_table E generate_content page_text).1
       = after_detection E page_num image page_text
           {| det_response := d; det_error := PyNone |}).
Proof.
  intros Hkey Htext Hgen Hjson Herr.
  rewrite (detect_table_calls E generate_content page_text Htext).
  unfold call_gemini_for_json. rewrite Hkey. simpl. rewrite Hgen, Hjson, Herr.
  split; [done |]. intros Hfalsy page_num image.
  unfold after_detection. simpl. by rewrite Hfalsy.
Qed.

Lemma error_key_bypasses_validation_witness :
  detect_table decodes_null_error (fun _ => Text "null error") "a  b  c"
  = ({| det_response := response_with_error PyNone; det_error := PyNone |},
     [GenerateContent (wrap_prompt decodes_null_error "a  b  c")])
  ∧ (truthy PyNone = false →
     ∀ (page_num : nat) (image : string),
       after_detection decodes_null_error page_num image "a  b  c"
         (detect_table decodes_null_error (fun _ => Text "null error") "a  b  c").1
       = after_detection decodes_null_error page_num image "a  b  c"
           {| det_response := response_with_error PyNone; det_error := PyNone |}).
Proof.
  apply (error_key_bypasses_validation decodes_null_error
           (fun _ => Text "null error") "a  b  c" "null error"
           (response_with_error PyNone) PyNone); reflexivity.
Defined.


Lemma detect_table_surfaces_last_error_witness :
  (detect_table quiet_env (fun _ => Raises deadline_exceeded) "a  b  c").1
  = {| det_response :=
         {["error" :=
             PyStr "Gemini API call failed after 3 attempts: 504 Deadline Exceeded"]};
       det_error :=
         PyStr "Gemini API call failed after 3 attempts: 504 Deadline Exceeded" |}
  ∧ attempts (detect_table quiet_env (fun _ => Raises deadline_exceeded) "a  b  c").2
    = 3.
Proof.
  apply (detect_table_surfaces_last_error quiet_env
           (fun _ => Raises deadline_exceeded) "a  b  c" eq_refl eq_refl).
  intros k _. reflexivity.
Defined.

(** ** The run over all pages *)

Section run_facts.
Context (E : env) (reader : list page).

Lemma process_single_page_outcome (page_index : nat) (fs : gmap path file) :
  (process_single_page E reader page_index fs).1.1 = page_outcome E reader page_index.
Proof.
  destruct (process_single_page_local E reader page_index) as (r & u & _ & H).
  unfold page_outcome. by rewrite !H.
Qed.

Lemma run_tasks_results (order : list nat) :
  ∀ fs, (run_tasks E reader order fs).1
        = map (fun i => (i, page_outcome E reader i)) order.
Proof.
  induction order as [|i order IH]; intros fs; [done |].
  simpl. pose proof (process_single_page_outcome i fs) as Hi.
  destruct (process_single_page E reader i fs) as [[r fs1] tr]. simpl in Hi.
  specialize (IH fs1). destruct (run_tasks E reader order fs1) as [rs fs2].
  simpl in *. by rewrite Hi, IH.
Qed.

(** The pool leaves alone the files of the pages it is not given. *)
Lemma run_tasks_frame_in (order : list nat) (p : path) :
  (∀ i, i ∈ order → ¬ owned_by i p) →
  ∀ fs, (run_tasks E reader order fs).2 !! p = fs !! p.
Proof.
  induction order as [|i order IH]; intros Hp fs; [done |].
  rewrite run_tasks_cons, IH.
  - destruct (task_effect_pointwise E reader i) as (g & Hg & Hid).
    rewrite Hg. apply Hid, Hp. by left.
  - intros j Hj. apply Hp. by right.
Qed.

Lemma task_effect_removes_split_page (i : nat) (fs : gmap path file) :
  unlink_error E (i + 1) = None →
  task_effect E reader i fs !! split_page (i + 1) = None.
Proof.
  intros Hunlink. unfold task_effect, process_single_page.
  destruct (page_body E reader i fs) as [[r fs1] tr].
  assert ((unlink_split_page E (i + 1) fs1).1 !! split_page (i + 1) = None) as H.
  { unfold unlink_split_page. rewrite Hunlink.
    destruct (fs1 !! split_page (i + 1)) eqn:Hf; simpl;
      [apply lookup_delete_eq | done]. }
  destruct (unlink_split_page E (i + 1) fs1) as [fs2 tru].
  by destruct r.
Qed.

Lemma run_tasks_removes_split_pages (order : list nat) :
  ∀ fs i, i ∈ order → unlink_error E (i + 1) = None →
          (run_tasks E reader order fs).2 !! split_page (i + 1) = None.
Proof.
  induction order as [|j order IH]; intros fs i Hi Hunlink;
    [by apply elem_of_nil in Hi |].
  rewrite run_tasks_cons.
  destruct (decide (i ∈ order)) as [Hin|Hnot]; [by apply IH |].
  apply elem_of_cons in Hi as [->|Hi]; [| done].
  rewrite run_tasks_frame_in; [by apply task_effect_removes_split_page |].
  intros k Hk [H|[H|H]]; [| done | done].
  assert (k = j) as -> by (simplify_eq; lia). done.
Qed.

End run_facts.







Section run_verdicts.
Context (E : env) (fs : gmap path file) (reader : list page).
Hypothesis Hmkdir : mkdir_error E = None.
Hypothesis Hsource : PdfReader fs input_pdf = inr reader.
Hypothesis Hpages : reader ≠ [].

Lemma process_pdf_unfold (order : list nat) :
  process_pdf_in_tempdir E order fs
  = let results := map (fun i => (i, page_outcome E reader i)) order in
    ((bool_decide ((harvest results).2 = None) && ((harvest results).1 =? 0),
      match (harvest results).2 with
      | Some m => Some m
      | None =>
          if 0 <? (harvest results).1
          then Some (pretty (harvest results).1
                     +:+ " pages encountered processing errors.")
          else None
      end),
     (run_tasks E reader order fs).2).
Proof.
  unfold process_pdf_in_tempdir. rewrite Hmkdir, Hsource.
  destruct reader as [|pg rest]; [done |]. simpl length. simpl Nat.eqb. cbv iota.
  pose proof (run_tasks_results E (pg :: rest) order fs) as Hr.
  destruct (run_tasks E (pg :: rest) order fs) as [results fs1]. simpl in Hr.
  subst results. simpl. by destruct (harvest _).
Qed.



(** X19: After the run no split page is left of a dispatched page whose
    split page could be removed, and no file has changed but split pages,
    page images and markup artifacts. *)
Theorem run_cleans_split_pages (order : list nat) :
  (∀ i, i ∈ order → unlink_error E (i + 1) = None →
        work_area_after E order fs !! split_page (i + 1) = None)
  ∧ (∀ p, (∀ k, p ≠ split_page k) → (∀ k, p ≠ full_html k) →
          (∀ k, p ≠ page_images k) →
          work_area_after E order fs !! p = fs !! p).
Proof.
  unfold work_area_after. split.
  - intros i Hi Hunlink. rewrite process_pdf_unfold. cbv zeta. cbn [snd].
    by apply run_tasks_removes_split_pages.
  - intros p Hs Hh Hi. apply process_pdf_frame.
    intros i [H|[H|H]];
      [by apply (Hs (i + 1)) | by apply (Hh (i + 1)) | by apply (Hi (i + 1))].
Qed.

End run_verdicts.



Lemma run_cleans_split_pages_witness :
  (∀ i, i ∈ [1; 0] → unlink_error quiet_env (i + 1) = None →
        work_area_after quiet_env [1; 0] (fresh_work_area 2) !! split_page (i + 1)
        = None)
  ∧ (∀ p, (∀ k, p ≠ split_page k) → (∀ k, p ≠ full_html k) →
          (∀ k, p ≠ page_images k) →
          work_area_after quiet_env [1; 0] (fresh_work_area 2) !! p
          = fresh_work_area 2 !! p).
Proof.
  apply (run_cleans_split_pages quiet_env (fresh_work_area 2)
           ["original 1"; "original 2"]); [reflexivity | reflexivity | done].
Defined.

(** ** More on the merge *)

Section merge_status.
Context (E : env) (reader : list page).

Lemma status_agrees_degrade (msg : string) (st : merge_state) :
  status_agrees (degrade msg st).
Proof.
  unfold status_agrees, degrade. simpl.
  destruct (overall_merge_error_message st) as [m|]; [destruct (String.eqb m "") |];
    by split.
Qed.

Lemma status_agrees_merge_page (st : merge_state) (i : nat) :
  status_agrees st → status_agrees (merge_page E reader st i).
Proof.
  intros Hst.
  unfold merge_page, convert_html, original_page, append_from.
  repeat (case_match; simplify_eq/=; try done);
    try apply status_agrees_degrade.
Qed.

Lemma status_agrees_merge_loop (fs : gmap path file) :
  status_agrees (merge_loop E reader fs).
Proof.
  unfold merge_loop.
  assert (status_agrees (merge_init fs)) as Hinit by done.
  revert Hinit. generalize (merge_init fs). generalize (seq 0 (length reader)).
  intros l. induction l as [|i l IH]; intros st Hst; simpl; [done |].
  by apply IH, status_agrees_merge_page.
Qed.

(** The merge without markup: every page is the original one, and the
    status stays as it is. *)
Lemma merge_page_original (st : merge_state) (i : nat) (pg : page) :
  merge_fs st !! full_html (i + 1) = None →
  reader !! i = Some pg →
  original_write_error E i = None →
  merge_page E reader st i
  = add_page pg
      (set_fs (<[original_for_merge (i + 1) := PdfFile [pg]]> (merge_fs st)) st).
Proof.
  intros Hh Hpg Hw.
  unfold merge_page, convert_html, original_page, append_from, PdfReader.
  rewrite Hh, Hpg, Hw. simpl. by rewrite lookup_insert_eq.
Qed.

Lemma merge_fold_without_markup (n : nat) :
  ∀ (a : nat) (st : merge_state),
    (∀ i, a ≤ i < a + n → merge_fs st !! full_html (i + 1) = None) →
    (∀ i, a ≤ i < a + n → is_Some (reader !! i)) →
    (∀ i, a ≤ i < a + n → original_write_error E i = None) →
    merge_is_successful (foldl (merge_page E reader) st (seq a n))
    = merge_is_successful st
    ∧ overall_merge_error_message (foldl (merge_page E reader) st (seq a n))
      = overall_merge_error_message st.
Proof.
  induction n as [|n IH]; intros a st Hh Hpg Hw; simpl; [done |].
  destruct (Hpg a) as [pg Ha]; [lia |].
  rewrite (merge_page_original st a pg) by (try apply Hh; try apply Hw; done || lia).
  destruct (IH (S a)
              (add_page pg
                 (set_fs (<[original_for_merge (a + 1) := PdfFile [pg]]> (merge_fs st))
                    st))) as [H1 H2].
  - intros i Hi. simpl. rewrite lookup_insert_ne by done. apply Hh. lia.
  - intros i Hi. apply Hpg. lia.
  - intros i Hi. apply Hw. lia.
  - by rewrite H1, H2.
Qed.

Lemma merge_loop_without_markup (fs : gmap path file) :
  (∀ i, i < length reader → fs !! full_html (i + 1) = None) →
  (∀ i, i < length reader → original_write_error E i = None) →
  merge_is_successful (merge_loop E reader fs) = true
  ∧ overall_merge_error_message (merge_loop E reader fs) = None
  ∧ merger (merge_loop E reader fs) = reader.
Proof.
  intros Hh Hw.
  destruct (merge_fold_without_markup (length reader) 0 (merge_init fs))
    as [H1 H2].
  { intros i Hi. apply Hh. lia. }
  { intros i Hi. apply lookup_lt_is_Some. lia. }
  { intros i Hi. apply Hw. lia. }
  split; [done |]. split; [done |].
  rewrite merge_loop_merger.
  assert (∀ i, i < length reader →
               page_contribution E reader fs i = reader !! i) as Hc.
  { intros i Hi. unfold page_contribution, original_contribution.
    by rewrite Hh, Hw. }
  destruct (omap_seq_total (page_contribution E reader fs) (length reader))
    as [Hlen Hlook].
  { intros i Hi. rewrite Hc by done. apply lookup_lt_is_Some. lia. }
  apply list_eq. intros i.
  destruct (decide (i < length reader)) as [Hi|Hi].
  - by rewrite Hlook, Hc.
  - rewrite !lookup_ge_None_2; [done | lia | lia].
Qed.

End merge_status.

(** X21: The merge reports success exactly when it returns no error message,
    and then it also returns the path of the merged document. *)
Theorem merge_success_iff_no_message (E : env) (fs : gmap path file) :
  ((merge_final_pdf E fs).1.1.1 = true ↔ (merge_final_pdf E fs).1.2 = None)
  ∧ ((merge_final_pdf E fs).1.1.1 = true →
     (merge_final_pdf E fs).1.1.2 = Some final_merged).
Proof.
  unfold merge_final_pdf.
  destruct (PdfReader fs input_pdf) as [e|reader]; [by split |]. cbv zeta.
  pose proof (status_agrees_merge_loop E reader fs) as Hst.
  destruct (0 <? length (merger (merge_loop E reader fs))).
  - destruct (final_write_error E); [by split | done].
  - split; [| done]. split; [done |]. simpl.
    by destruct (overall_merge_error_message (merge_loop E reader fs)) as [[|]|].
Qed.

(** X22: The merge never changes the source document, the markup artifacts or
    the split pages: it only writes converted pages, copies of original
    pages and the merged document. *)
Theorem merge_leaves_inputs_alone (E : env) (fs : gmap path file) :
  (merge_final_pdf E fs).2 !! input_pdf = fs !! input_pdf
  ∧ (∀ k, (merge_final_pdf E fs).2 !! full_html k = fs !! full_html k)
  ∧ (∀ k, (merge_final_pdf E fs).2 !! split_page k = fs !! split_page k).
Proof.
  assert (∀ p, (∀ k, p ≠ converted_pdf k) → (∀ k, p ≠ original_for_merge k) →
               p ≠ final_merged → (merge_final_pdf E fs).2 !! p = fs !! p) as H.
  { intros p Hc Ho Hf. unfold merge_final_pdf.
    destruct (PdfReader fs input_pdf) as [e|reader]; [done |]. cbv zeta.
    destruct (0 <? length (merger (merge_loop E reader fs)));
      [destruct (final_write_error E) as [[we [lf|]]|] |]; simpl;
      rewrite ?lookup_insert_ne by done; by apply merge_fold_fs. }
  repeat split; intros; by apply H.
Qed.

(** X23: A document for which the work area holds no markup is merged into a
    copy of itself, with success, when its pages can be extracted. *)
Theorem merge_without_markup_is_identity (E : env) (fs : gmap path file)
  (reader : list page) :
  PdfReader fs input_pdf = inr reader →
  reader ≠ [] →
  (∀ i, i < length reader → fs !! full_html (i + 1) = None) →
  (∀ i, i < length reader → original_write_error E i = None) →
  final_write_error E = None →
  (merge_final_pdf E fs).1 = (true, Some final_merged, None)
  ∧ output_pages (merge_final_pdf E fs) = Some reader.
Proof.
  intros Hsource Hne Hh Hw Hfinal.
  destruct (merge_loop_without_markup E reader fs Hh Hw) as (H1 & H2 & H3).
  unfold merge_final_pdf. rewrite Hsource. cbv zeta. rewrite H3, Hfinal.
  destruct reader as [|pg rest]; [done |]. simpl.
  by rewrite lookup_insert_eq, H1, H2.
Qed.

Lemma merge_without_markup_is_identity_witness :
  (merge_final_pdf quiet_env (fresh_work_area 3)).1 = (true, Some final_merged, None)
  ∧ output_pages (merge_final_pdf quiet_env (fresh_work_area 3))
    = Some ["original 1"; "original 2"; "original 3"].
Proof.
  apply (merge_without_markup_is_identity quiet_env (fresh_work_area 3)
           ["original 1"; "original 2"; "original 3"]);
    [reflexivity | done | | reflexivity | reflexivity].
  intros i _. unfold fresh_work_area. by rewrite lookup_singleton_ne.
Defined.

(** X24: When the renderer converts the markup of a page into a document with
    pages, and every other page yields a page too, the first converted
    page takes the place of that page in the merged document. *)
Theorem rendered_page_replaces_original (E : env) (fs : gmap path file)
  (reader : list page) (k : nat) (h : file) (pg : page) (rest : list page) :
  PdfReader fs input_pdf = inr reader →
  k < length reader →
  fs !! full_html (k + 1) = Some h →
  pdfkit_from_file E (k + 1) h = PdfkitDone (Some (PdfFile (pg :: rest))) →
  (∀ i, i < length reader → i ≠ k → is_Some (page_contribution E reader fs i)) →
  final_write_error E = None →
  ∃ pages,
    output_pages (merge_final_pdf E fs) = Some pages
    ∧ length pages = length reader
    ∧ pages !! k = Some pg.
Proof.
  intros Hsource Hk Hh Hconv Hothers Hfinal.
  assert (page_contribution E reader fs k = Some pg) as Hcontrib.
  { unfold page_contribution. by rewrite Hh, Hconv. }
  assert (∀ i, i < length reader → is_Some (page_contribution E reader fs i))
    as Hall.
  { intros i Hi. destruct (decide (i = k)) as [->|Hne]; [by rewrite Hcontrib | auto]. }
  destruct (omap_seq_total _ _ Hall) as [Hlen Hlook].
  exists (omap (page_contribution E reader fs) (seq 0 (length reader))).
  unfold merge_final_pdf. rewrite Hsource. cbv zeta.
  rewrite merge_loop_merger, Hlen, Hfinal.
  assert ((0 <? length reader) = true) as -> by (apply Nat.ltb_lt; lia).
  simpl. by rewrite lookup_insert_eq, Hlook, Hcontrib.
Qed.

Lemma rendered_page_replaces_original_witness :
  ∃ pages,
    output_pages (merge_final_pdf quiet_env (work_area_with_markup 3 2)) = Some pages
    ∧ length pages = length ["original 1"; "original 2"; "original 3"]
    ∧ pages !! 1 = Some "rendered".
Proof.
  apply (rendered_page_replaces_original quiet_env (work_area_with_markup 3 2)
           ["original 1"; "original 2"; "original 3"] 1
           (HtmlFile "<html>...</html>") "rendered" []);
    [reflexivity | simpl; lia | reflexivity | reflexivity | | reflexivity].
  intros i Hi Hne.
  destruct i as [|[|[|i]]]; simpl in Hi; try lia; try done; vm_compute; eauto.
Defined.

(** ** Runs in which no table is found *)


Section no_table_runs.
Context (E : env) (reader : list page).





End no_table_runs.





(** ** Upload checks *)

Section split_last_facts.
Context (sep : ascii).





End split_last_facts.


(** X27: [validate_file] accepts exactly the files that are present, have an
    allowed name and are not larger than the limit (a declared length of 0
    counts as unknown and passes); the test for an empty name only picks the
    message.  An accepted file comes with an empty message. *)
Theorem validate_file_accepts_iff (file : option file_storage) :
  ((validate_file file).1 = true
   ↔ ∃ f, file = Some f
          ∧ allowed_file (filename f) = true
          ∧ (content_length f ≤ MAX_CONTENT_LENGTH)%Z)
  ∧ ((validate_file file).1 = true → (validate_file file).2 = "").
Proof.
  unfold validate_file. destruct file as [f|]; [| split; [| done]; split; [done |];
    by intros (f & ? & _)].
  destruct (String.eqb_spec (filename f) "") as [Hempty|Hname].
  { split; [| done]. split; [done |]. intros (f' & [= <-] & Hallowed & _).
    by rewrite Hempty in Hallowed. }
  destruct (allowed_file (filename f)) eqn:Hallowed; simpl;
    [| split; [| done]; split; [done |]; intros (f' & [= <-] & H & _); congruence].
  assert (negb (content_length f =? 0)%Z
          && (MAX_CONTENT_LENGTH <? content_length f)%Z = false
          ↔ (content_length f ≤ MAX_CONTENT_LENGTH)%Z) as Hsize.
  { unfold MAX_CONTENT_LENGTH. rewrite andb_false_iff, negb_false_iff.
    rewrite Z.eqb_eq, Z.ltb_ge. lia. }
  destruct (negb (content_length f =? 0)%Z
            && (MAX_CONTENT_LENGTH <? content_length f)%Z) eqn:Hbig; simpl.
  - split; [| done]. split; [done |]. intros (f' & [= <-] & _ & Hle).
    apply Hsize in Hle. congruence.
  - split; [| done]. split; [| done]. intros _. exists f.
    split; [done |]. split; [done |]. by apply Hsize.
Qed.
